(** * licverifier: verification of MinIO Subnet license keys

    A shallow embedding of [licverifier/verifier.go] and the properties of
    its verification pipeline: key loading, key-set construction, token
    verification, claims extraction and deployment matching.

    Go values are embedded as follows.
    - [error] is the text an error reports through [Error()]; a nil error
      is [None].
    - A function returning a pointer and an error returns a [result]; a
      function returning a struct by value together with an error returns
      a pair, so that the value accompanying a non-nil error stays
      observable.
    - A method with a pointer receiver takes the receiver and returns it
      next to its results.
    - [float64] is the IEEE 754 binary64 format of [SpecFloat].
    - [interface{}] is the tagged union [any] of the dynamic types a claim
      can have.
    - The packages the file imports ([encoding/pem], [crypto/x509],
      [jwx/jwk], [jwx/jwt], [minio/pkg/env]) are not part of the
      repository; each is a class whose methods are the entry points the
      file calls. *)

From Stdlib Require Import ZArith Lia Bool List.
From Stdlib Require Import Floats.SpecFloat.
From stdpp Require Import base option list gmap strings.

Local Open Scope Z_scope.

(** ** Go basics *)

Module Go.

(** An [error] value, as seen through its [Error()] method. *)
Definition error : Type := string.

(** [errors.New(text)]. *)
Definition errors_New (text : string) : error := text.

(** [fmt.Errorf(prefix + "%s", err)]: the message of [err] is formatted
    into a fresh error; the cause is not kept as a value. *)
Definition fmt_Errorf_s (prefix : string) (err : error) : error :=
  prefix +:+ err.

(** Result of a function returning a pointer and an error. *)
Inductive result (T : Type) : Type :=
| Ok (v : T)
| Err (e : error).
Arguments Ok {T} v.
Arguments Err {T} e.

(** [time.Time], as seconds since the Unix epoch. *)
Definition Time : Type := Z.

(** The zero [time.Time]: January 1, year 1, 00:00:00 UTC. *)
Definition time_zero : Time := -62135596800.

Definition time_IsZero (t : Time) : bool := t =? time_zero.

(** *** float64 *)

Definition float64 : Type := spec_float.
Definition prec : Z := 53.
Definition emax : Z := 1024.

(** The float64 zero value and constant [0]. *)
Definition float64_zero : float64 := S754_zero false.

(** The float64 nearest to the integer [n]. *)
Definition float64_of_Z (n : Z) : float64 := binary_normalize prec emax n 0 false.

(** The float64 nearest to the decimal [n / d], as [encoding/json]
    decodes a number literal. *)
Definition float64_of_ratio (n d : Z) : float64 :=
  SFdiv prec emax (float64_of_Z n) (float64_of_Z d).

(** [x < y] on float64: false when either side is NaN. *)
Definition float64_lt (x y : float64) : bool := SFltb x y.

Definition is_finite (f : float64) : bool :=
  match f with
  | S754_zero _ | S754_finite _ _ _ => true
  | _ => false
  end.

(** A finite non-zero float is [(-1)^s * m * 2^e]; it has a fractional
    part when [e < 0] and [2^(-e)] does not divide [m]. *)
Definition has_fraction (f : float64) : bool :=
  match f with
  | S754_finite _ m e => (e <? 0) && negb (Z.pos m mod 2 ^ (- e) =? 0)
  | _ => false
  end.

(** The integer a finite float carries once the fractional part is
    discarded: shifting the mantissa left for [e >= 0] and right for
    [e < 0], then restoring the sign. *)
Definition float64_integral (f : float64) : option Z :=
  match f with
  | S754_zero _ => Some 0
  | S754_finite s m e => Some (cond_Zopp s (Z.shiftl (Z.pos m) e))
  | _ => None
  end.

Definition min_int64 : Z := - 2 ^ 63.
Definition max_int64 : Z := 2 ^ 63 - 1.

Definition fits_int64 (z : Z) : bool := (min_int64 <=? z) && (z <=? max_int64).

(** The language leaves the result of a float-to-integer conversion
    implementation-dependent when the value is not representable; the
    platform decides it. *)
Class Platform : Type := { int64_unrepresentable : float64 -> Z }.

(** [int64(f)]. *)
Definition int64_of_float64 `{Platform} (f : float64) : Z :=
  match float64_integral f with
  | Some z => if fits_int64 z then z else int64_unrepresentable f
  | None => int64_unrepresentable f
  end.

(** The exact value of a finite float as a fraction [num / den]. *)
Definition float64_num (f : float64) : Z :=
  match f with
  | S754_finite s m e => cond_Zopp s (Z.pos m * 2 ^ Z.max e 0)
  | _ => 0
  end.

Definition float64_den (f : float64) : Z :=
  match f with
  | S754_finite _ _ e => 2 ^ Z.max (- e) 0
  | _ => 1
  end.

(** Rounding toward zero, stated on the exact value. *)
Definition truncate (f : float64) : Z := Z.quot (float64_num f) (float64_den f).

(** [f] is a value of the binary64 format. *)
Definition valid_float64 (f : float64) : Prop := valid_binary prec emax f = true.

(** [f] is exactly the integer [n]. *)
Definition float64_is_Z (f : float64) (n : Z) : Prop :=
  is_finite f = true /\ float64_num f = n * float64_den f.

(** *** interface{} *)

Local Unset Elimination Schemes.

(** The dynamic values a decoded claim set can hold. *)
Inductive any : Type :=
| AnyNil
| AnyBool (b : bool)
| AnyFloat64 (f : float64)
| AnyString (s : string)
| AnyTime (t : Time)
| AnySlice (l : list any)
| AnyMap (m : gmap string any).

Local Set Elimination Schemes.

(** [m[k]] on a [map[string]interface{}]: nil when the key is absent. *)
Definition map_index (m : gmap string any) (k : string) : any :=
  default AnyNil (m !! k).

(** [v.(float64)] in its comma-ok form. *)
Definition assert_float64 (v : any) : float64 * bool :=
  match v with
  | AnyFloat64 f => (f, true)
  | _ => (float64_zero, false)
  end.

(** [v.(string)] in its comma-ok form. *)
Definition assert_string (v : any) : string * bool :=
  match v with
  | AnyString s => (s, true)
  | _ => ("", false)
  end.

(** The claim under [k] is absent or is not a float64. *)
Definition not_float64_at (claims : gmap string any) (k : string) : Prop :=
  claims !! k = None \/ exists v, claims !! k = Some v /\ forall f, v <> AnyFloat64 f.

(** The claim under [k] is absent or is not a string. *)
Definition not_string_at (claims : gmap string any) (k : string) : Prop :=
  claims !! k = None \/ exists v, claims !! k = Some v /\ forall s, v <> AnyString s.

End Go.

Import Go.

(** ** Imported packages *)

(** *** crypto *)

Inductive elliptic_Curve : Type := P224 | P256 | P384 | P521.

Record ecdsa_PublicKey : Type :=
  { ecdsa_Curve : elliptic_Curve; ecdsa_X : Z; ecdsa_Y : Z }.

Record rsa_PublicKey : Type := { rsa_N : Z; rsa_E : Z }.

(** The dynamic value of a parsed public key held in an [interface{}]. *)
Inductive crypto_PublicKey : Type :=
| KeyECDSA (k : ecdsa_PublicKey)
| KeyRSA (k : rsa_PublicKey)
| KeyDSA (y : Z)
| KeyEd25519 (k : string)
| KeyNil.

(** The type assertion of [parsedKey] to a pointer to [ecdsa.PublicKey]:
    the pointer, or nil with [ok = false]. *)
Definition assert_ecdsa (parsedKey : crypto_PublicKey) : option ecdsa_PublicKey :=
  match parsedKey with
  | KeyECDSA k => Some k
  | _ => None
  end.

(** *** encoding/pem and crypto/x509 *)

Record pem_Block : Type :=
  { pem_Type : string; pem_Headers : gmap string string; pem_Bytes : string }.

Record x509_Certificate : Type :=
  { cert_Raw : string; cert_PublicKey : crypto_PublicKey }.

Class encoding_pem : Type :=
  { pem_Decode : string -> option pem_Block * string }.

Class crypto_x509 : Type :=
  { x509_ParsePKIXPublicKey : string -> result crypto_PublicKey;
    x509_ParseCertificate : string -> result x509_Certificate }.

(** *** jwx/jwa and jwx/jwk *)

Definition jwa_ES256 : string := "ES256".
Definition jwa_ES384 : string := "ES384".
Definition jwa_ES512 : string := "ES512".

Definition jwk_AlgorithmKey : string := "alg".

(** A JWK: the raw key it was made from and its named fields. *)
Record jwk_Key : Type :=
  { key_Raw : ecdsa_PublicKey; key_fields : gmap string string }.

(** [key.Set(name, value)], for a field and a value the key accepts, as
    the algorithm field accepts a signature algorithm. *)
Definition jwk_Key_Set (key : jwk_Key) (name value : string) : jwk_Key :=
  {| key_Raw := key_Raw key; key_fields := <[name := value]> (key_fields key) |}.

(** [key.Algorithm()]: the empty string when the field is not set. *)
Definition jwk_Key_Algorithm (key : jwk_Key) : string :=
  default "" (key_fields key !! jwk_AlgorithmKey).

#[global] Instance elliptic_Curve_eq_dec : EqDecision elliptic_Curve.
Proof. solve_decision. Defined.

#[global] Instance ecdsa_PublicKey_eq_dec : EqDecision ecdsa_PublicKey.
Proof. solve_decision. Defined.

#[global] Instance jwk_Key_eq_dec : EqDecision jwk_Key.
Proof. solve_decision. Defined.

(** A key set keeps its keys in insertion order. *)
Definition jwk_Set : Type := list jwk_Key.

(** [jwk.NewSet()]. *)
Definition jwk_NewSet : jwk_Set := [].

(** [keyset.Add(key)]: a key already in the set is not added again. *)
Definition jwk_Set_Add (keyset : jwk_Set) (key : jwk_Key) : jwk_Set :=
  if decide (key ∈ keyset) then keyset else keyset ++ [key].

Class jwx_jwk : Type :=
  { jwk_New : ecdsa_PublicKey -> result jwk_Key }.

(** *** jwx/jwt *)

(** A [jwt.Token] is an interface; it is given by what its methods
    return. *)
Record jwt_Token : Type :=
  { AsMap : result (gmap string any);
    Subject : string;
    Expiration : Time;
    NotBefore : Time }.

(** The token whose [AsMap] returns [claims] and whose other methods
    return what they return on [token]. *)
Definition with_claims (token : jwt_Token) (claims : gmap string any) : jwt_Token :=
  {| AsMap := Ok claims; Subject := Subject token;
     Expiration := Expiration token; NotBefore := NotBefore token |}.

Inductive jwt_ParseOption : Type :=
| jwt_WithKeySet (keyset : jwk_Set)
| jwt_UseDefaultKey (b : bool)
| jwt_WithValidate (b : bool)
| jwt_WithValidator (v : jwt_Token -> option error)
| jwt_OtherOption (name : string).

Class jwx_jwt : Type :=
  { jwt_ParseString : string -> list jwt_ParseOption -> result jwt_Token }.

(** *** minio/pkg/env *)

Class pkg_env : Type :=
  { env_Get : string -> string -> string }.

(** ** Package licverifier *)

(** [LicenseVerifier] needs an ECDSA public key in PEM format for
    initialization. *)
Record LicenseVerifier : Type := { keySet : jwk_Set }.

(** [LicenseInfo] holds customer metadata present in the license key. *)
Record LicenseInfo : Type :=
  { Email : string;
    Organization : string;
    AccountID : Z;
    DeploymentID : string;
    StorageCapacity : Z;
    Plan : string;
    ExpiresAt : Time }.

(** [LicenseInfo{}]. *)
Definition LicenseInfo_zero : LicenseInfo :=
  {| Email := ""; Organization := ""; AccountID := 0; DeploymentID := "";
     StorageCapacity := 0; Plan := ""; ExpiresAt := time_zero |}.

(** License key JSON field names. *)
Definition accountID : string := "aid".
Definition deploymentID : string := "did".
Definition organization : string := "org".
Definition capacity : string := "cap".
Definition plan : string := "plan".

(** Parse PEM encoded PKCS1 or PKCS8 public key. *)
Definition parseECPublicKeyFromPEM `{encoding_pem, crypto_x509}
    (key : string) : result ecdsa_PublicKey :=
  match (pem_Decode key).1 with
  | None => Err (errors_New "key must be a PEM encoded PKCS1 or PKCS8 key")
  | Some block =>
    let parsed :=
      match x509_ParsePKIXPublicKey (pem_Bytes block) with
      | Ok parsedKey => Ok parsedKey
      | Err _ =>
        match x509_ParseCertificate (pem_Bytes block) with
        | Ok cert => Ok (cert_PublicKey cert)
        | Err err => Err err
        end
      end in
    match parsed with
    | Err err => Err err
    | Ok parsedKey =>
      match assert_ecdsa parsedKey with
      | Some pkey => Ok pkey
      | None => Err (errors_New "key is not a valid RSA public key")
      end
    end
  end.

(** [NewLicenseVerifier] returns an initialized license verifier with the
    given ECDSA public key in PEM format. *)
Definition NewLicenseVerifier `{encoding_pem, crypto_x509, jwx_jwk}
    (pemBytes : string) : result LicenseVerifier :=
  match parseECPublicKeyFromPEM pemBytes with
  | Err err => Err (fmt_Errorf_s "Failed to parse public key: " err)
  | Ok pbKey =>
    match jwk_New pbKey with
    | Err err => Err err
    | Ok key =>
      let key := jwk_Key_Set key jwk_AlgorithmKey jwa_ES384 in
      let keyset := jwk_NewSet in
      let keyset := jwk_Set_Add keyset key in
      Ok {| keySet := keyset |}
    end
  end.

(** [toLicenseInfo] extracts [LicenseInfo] from claims. It returns an error
    if any of the claim values are invalid. *)
Definition toLicenseInfo `{Platform} (token : jwt_Token) : LicenseInfo * option error :=
  match AsMap token with
  | Err err => (LicenseInfo_zero, Some err)
  | Ok claims =>
    let '(accID, ok) := assert_float64 (map_index claims accountID) in
    if negb ok || ok && float64_lt accID float64_zero then
      (LicenseInfo_zero, Some (errors_New "Invalid accountId in claims"))
    else
      let '(depUUID, _) := assert_string (map_index claims deploymentID) in
      let '(orgName, ok) := assert_string (map_index claims organization) in
      if negb ok then
        (LicenseInfo_zero, Some (errors_New "Invalid organization in claims"))
      else
        let '(storageCap, ok) := assert_float64 (map_index claims capacity) in
        if negb ok then
          (LicenseInfo_zero, Some (errors_New "Invalid storage capacity in claims"))
        else
          let '(plan, ok) := assert_string (map_index claims plan) in
          if negb ok then
            (LicenseInfo_zero, Some (errors_New "Invalid plan in claims"))
          else
            ({| Email := Subject token;
                Organization := orgName;
                AccountID := int64_of_float64 accID;
                DeploymentID := depUUID;
                StorageCapacity := int64_of_float64 storageCap;
                Plan := plan;
                ExpiresAt := Expiration token |}, None)
  end.

(** The options [Verify] hands to [jwt.ParseString]: the caller's, then
    its own. *)
Definition parse_options (lv : LicenseVerifier) (options : list jwt_ParseOption)
    : list jwt_ParseOption :=
  options ++ [jwt_WithKeySet (keySet lv); jwt_UseDefaultKey true; jwt_WithValidate true].

(** [Verify] verifies the license key and validates the claims present in
    it. The method has a pointer receiver: the verifier is threaded
    through, and handed back as the call leaves it. *)
Definition Verify `{Platform, jwx_jwt} (license : string)
    (options : list jwt_ParseOption) (lv : LicenseVerifier)
    : (LicenseInfo * option error) * LicenseVerifier :=
  let options :=
    options ++ [jwt_WithKeySet (keySet lv); jwt_UseDefaultKey true; jwt_WithValidate true] in
  match jwt_ParseString license options with
  | Err err =>
    ((LicenseInfo_zero, Some (fmt_Errorf_s "failed to verify license: " err)), lv)
  | Ok token => (toLicenseInfo token, lv)
  end.

(** The embedded public keys. *)
Definition devPublicKey : string :=
"-----BEGIN PUBLIC KEY-----
MHYwEAYHKoZIzj0CAQYFK4EEACIDYgAEbo+e1wpBY4tBq9AONKww3Kq7m6QP/TBQ
mr/cKCUyBL7rcAvg0zNq1vcSrUSGlAmY3SEDCu3GOKnjG/U4E7+p957ocWSV+mQU
9NKlTdQFGF3+aO6jbQ4hX/S5qPyF+a3z
-----END PUBLIC KEY-----".

Definition prodPublicKey : string :=
"-----BEGIN PUBLIC KEY-----
MHYwEAYHKoZIzj0CAQYFK4EEACIDYgAEaK31xujr6/rZ7ZfXZh3SlwovjC+X8wGq
qkltaKyTLRENd4w3IRktYYCRgzpDLPn/nrf7snV/ERO5qcI7fkEES34IVEr+2Uff
JkO2PfyyAYEO/5dBlPh1Undu9WQl6J7B
-----END PUBLIC KEY-----".

(** The embedded key [VerifyClusterLicense] selects: the development key
    when [MINIO_CI_CD] is set, the production key otherwise. *)
Definition clusterPublicKey `{pkg_env} : string :=
  if negb (String.eqb (env_Get "MINIO_CI_CD" "") "") then devPublicKey
  else prodPublicKey.

(** The outcome [r] of the key loader on a parsed key: the key itself when
    it is an ECDSA key, the key-type error otherwise. *)
Definition key_type_checked (parsedKey : crypto_PublicKey)
    (r : result ecdsa_PublicKey) : Prop :=
  (forall pkey, parsedKey = KeyECDSA pkey -> r = Ok pkey)
  /\ ((forall pkey, parsedKey <> KeyECDSA pkey) ->
      r = Err "key is not a valid RSA public key").

(** [VerifyClusterLicense] verifies if the given license string is valid
    for the given cluster (deployment id). *)
Definition VerifyClusterLicense
    `{Platform, encoding_pem, crypto_x509, jwx_jwk, jwx_jwt, pkg_env}
    (lic depID : string) (options : list jwt_ParseOption) : option error :=
  let devMode := negb (String.eqb (env_Get "MINIO_CI_CD" "") "") in
  let pemBytes := if devMode then devPublicKey else prodPublicKey in
  match NewLicenseVerifier pemBytes with
  | Err e => Some e
  | Ok lv =>
    match (Verify lic options lv).1 with
    | (_, Some e) => Some e
    | (licInfo, None) =>
      if negb (String.eqb (DeploymentID licInfo) depID) then
        Some (errors_New "Invalid license - deployment ID doesn't match")
      else None
    end
  end.

(** ** The token verifier *)

(** Modelled from the spec: the reasons for which [jwt.ParseString], of
    the package [jwx/jwt] that is not part of the repository, rejects a
    token. *)
Inductive VerificationCause : Type :=
| MalformedToken
| NoVerificationKey
| SignatureAlgorithmMismatch
| InvalidSignature
| Expired
| NotYetValid
| Rejected (reason : error).

(** Modelled from the spec: a decoded compact token of the package
    [jwx/jwt], which is not part of the repository: the algorithm its
    header declares, the header and payload segments the signature
    covers, the signature, and the claim set of the payload. *)
Record jws_Message : Type :=
  { msg_alg : string;
    msg_signing_input : string;
    msg_signature : string;
    msg_token : jwt_Token }.

(** Modelled from the spec: what [jwt.ParseString], of the package
    [jwx/jwt] that is not part of the repository, takes from its
    environment: the decoding of the three base64url segments, the
    signature primitive, the wall-clock time at the call, and the text of
    each rejection. *)
Class TokenCodec : Type :=
  { decode_compact : string -> option jws_Message;
    signature_matches : string -> ecdsa_PublicKey -> string -> string -> bool;
    clock_Now : Time;
    cause_Error : VerificationCause -> error }.

(** Modelled from the spec: the settings the options of
    [jwt.ParseString] add up to; the package [jwx/jwt] is not part of the
    repository. *)
Record ParseCtx : Type :=
  { ctx_keySet : option jwk_Set;
    ctx_useDefault : bool;
    ctx_validate : bool;
    ctx_validators : list (jwt_Token -> option error) }.

(** Modelled from the spec: the settings of [jwt.ParseString] before any
    option is read; the package [jwx/jwt] is not part of the repository. *)
Definition ParseCtx_init : ParseCtx :=
  {| ctx_keySet := None; ctx_useDefault := false; ctx_validate := false;
     ctx_validators := [] |}.

(** Modelled from the spec: how [jwt.ParseString] reads its options; the
    package [jwx/jwt] is not part of the repository. Options are read in
    order, a later setting replacing an earlier one of the same kind;
    validation predicates accumulate. *)
Definition ParseCtx_apply (ctx : ParseCtx) (o : jwt_ParseOption) : ParseCtx :=
  match o with
  | jwt_WithKeySet keyset =>
    {| ctx_keySet := Some keyset; ctx_useDefault := ctx_useDefault ctx;
       ctx_validate := ctx_validate ctx; ctx_validators := ctx_validators ctx |}
  | jwt_UseDefaultKey b =>
    {| ctx_keySet := ctx_keySet ctx; ctx_useDefault := b;
       ctx_validate := ctx_validate ctx; ctx_validators := ctx_validators ctx |}
  | jwt_WithValidate b =>
    {| ctx_keySet := ctx_keySet ctx; ctx_useDefault := ctx_useDefault ctx;
       ctx_validate := b; ctx_validators := ctx_validators ctx |}
  | jwt_WithValidator v =>
    {| ctx_keySet := ctx_keySet ctx; ctx_useDefault := ctx_useDefault ctx;
       ctx_validate := ctx_validate ctx; ctx_validators := ctx_validators ctx ++ [v] |}
  | jwt_OtherOption _ => ctx
  end.

(** Modelled from the spec: the key a token is verified against; the
    package [jwx/jwt] is not part of the repository. The key set holds one
    key and algorithm pair, used as the default key. *)
Definition default_key (ctx : ParseCtx) : option jwk_Key :=
  match ctx_keySet ctx with
  | Some [key] => if ctx_useDefault ctx then Some key else None
  | _ => None
  end.

(** Modelled from the spec: the first caller-supplied validation
    predicate of [jwt.ParseString] that rejects the token; the package
    [jwx/jwt] is not part of the repository. *)
Fixpoint first_rejection (vs : list (jwt_Token -> option error)) (token : jwt_Token)
    : option VerificationCause :=
  match vs with
  | [] => None
  | v :: vs' =>
    match v token with
    | Some reason => Some (Rejected reason)
    | None => first_rejection vs' token
    end
  end.

(** Modelled from the spec: the standard validation of [jwt.ParseString];
    the package [jwx/jwt] is not part of the repository. A token is
    rejected when the current time is at or after its expiration claim,
    and when the current time is before its not-before claim; a claim
    that is absent (the zero time) is not compared. Caller-supplied
    predicates are applied after. *)
Definition standard_validation (now : Time) (ctx : ParseCtx) (token : jwt_Token)
    : option VerificationCause :=
  if negb (time_IsZero (Expiration token)) && (Expiration token <=? now) then
    Some Expired
  else if negb (time_IsZero (NotBefore token)) && (now <? NotBefore token) then
    Some NotYetValid
  else first_rejection (ctx_validators ctx) token.

(** Modelled from the spec: [jwt.ParseString] of the package [jwx/jwt],
    which is not part of the repository. The token string is decoded, its
    declared algorithm is compared with the algorithm bound to the key,
    the signature is checked over header and payload, and, when
    validation is enabled, the standard validation is applied. The first
    failing stage decides the error. *)
Definition token_verifier `{TokenCodec} (tokenString : string)
    (options : list jwt_ParseOption) : result jwt_Token :=
  let ctx := fold_left ParseCtx_apply options ParseCtx_init in
  match decode_compact tokenString with
  | None => Err (cause_Error MalformedToken)
  | Some msg =>
    match default_key ctx with
    | None => Err (cause_Error NoVerificationKey)
    | Some key =>
      if negb (String.eqb (msg_alg msg) (jwk_Key_Algorithm key)) then
        Err (cause_Error SignatureAlgorithmMismatch)
      else if negb (signature_matches (msg_alg msg) (key_Raw key)
                      (msg_signing_input msg) (msg_signature msg)) then
        Err (cause_Error InvalidSignature)
      else if ctx_validate ctx then
        match standard_validation clock_Now ctx (msg_token msg) with
        | Some cause => Err (cause_Error cause)
        | None => Ok (msg_token msg)
        end
      else Ok (msg_token msg)
    end
  end.

(** Modelled from the spec: the package [jwx/jwt], which is not part of
    the repository, with [token_verifier] as its [ParseString]. *)
Definition spec_jwt `{TokenCodec} : jwx_jwt := {| jwt_ParseString := token_verifier |}.

(** ** A sample environment

    Small instances of the imported packages and a few license tokens, on
    which the definitions above are evaluated. *)

Module Sample.

(** The conversion of an unrepresentable float gives the least int64, as
    on amd64. *)
Definition platform : Platform := {| int64_unrepresentable := fun _ => min_int64 |}.

Definition issuer_key : ecdsa_PublicKey :=
  {| ecdsa_Curve := P384; ecdsa_X := 11; ecdsa_Y := 13 |}.

(** Framing is found when the blob starts with a BEGIN line; the payload
    of the block is kept as the text itself. *)
Definition pem : encoding_pem :=
  {| pem_Decode := fun blob =>
       if String.prefix "-----BEGIN " blob then
         (Some {| pem_Type := "PUBLIC KEY"; pem_Headers := ∅; pem_Bytes := blob |}, "")
       else (None, blob) |}.

Definition rsaPublicKey : string := "-----BEGIN PUBLIC KEY-----RSA".
Definition certificate : string := "-----BEGIN CERTIFICATE-----EC".
Definition garbage : string := "-----BEGIN PUBLIC KEY-----??".

Definition x509 : crypto_x509 :=
  {| x509_ParsePKIXPublicKey := fun der =>
       if String.eqb der devPublicKey || String.eqb der prodPublicKey then
         Ok (KeyECDSA issuer_key)
       else if String.eqb der rsaPublicKey then
         Ok (KeyRSA {| rsa_N := 3233; rsa_E := 17 |})
       else Err "x509: failed to parse public key";
     x509_ParseCertificate := fun der =>
       if String.eqb der certificate then
         Ok {| cert_Raw := der; cert_PublicKey := KeyECDSA issuer_key |}
       else Err "x509: malformed certificate" |}.

(** The key as a JWK, announcing another algorithm than the verifier's. *)
Definition jwk : jwx_jwk :=
  {| jwk_New := fun raw =>
       Ok {| key_Raw := raw; key_fields := {[ "kty" := "EC"; "alg" := "ES256" ]} |} |}.

Definition env : pkg_env := {| env_Get := fun _ fallback => fallback |}.

Definition now : Time := 1700000000.

Definition claims_of (aid cap did org plan : any) : gmap string any :=
  {[ "aid" := aid; "cap" := cap; "did" := did; "org" := org; "plan" := plan ]}.

Definition token_of (claims : gmap string any) (exp : Time) : jwt_Token :=
  {| AsMap := Ok claims; Subject := "ops@acme.example"; Expiration := exp;
     NotBefore := time_zero |}.

Definition acme_claims : gmap string any :=
  claims_of (AnyFloat64 (float64_of_Z 42)) (AnyFloat64 (float64_of_Z 100))
    (AnyString "dep-123") (AnyString "Acme") (AnyString "enterprise").

(** The claims of a license issued before the deployment id existed. *)
Definition legacy_claims : gmap string any := delete "did" acme_claims.

Definition acme_token : jwt_Token := token_of acme_claims (now + 86400).
Definition legacy_token : jwt_Token := token_of legacy_claims (now + 86400).
Definition expired_token : jwt_Token := token_of acme_claims (now - 1).

(** [aid] is 42.9 and [cap] is -3.5. *)
Definition fractional_token : jwt_Token :=
  token_of (<[ "aid" := AnyFloat64 (float64_of_ratio 429 10) ]>
            (<[ "cap" := AnyFloat64 (float64_of_ratio (-7) 2) ]> acme_claims))
    (now + 86400).

(** [aid] is -1. *)
Definition negative_aid_token : jwt_Token :=
  token_of (<[ "aid" := AnyFloat64 (float64_of_Z (-1)) ]> acme_claims) (now + 86400).

(** [did] is the number 7. *)
Definition numeric_did_token : jwt_Token :=
  token_of (<[ "did" := AnyFloat64 (float64_of_Z 7) ]> acme_claims) (now + 86400).

Definition message_of (token : jwt_Token) (payload : string) : jws_Message :=
  {| msg_alg := "ES384"; msg_signing_input := "hdr." +:+ payload;
     msg_signature := "sig(hdr." +:+ payload +:+ ")"; msg_token := token |}.

(** The Acme token under a signature made over another payload. *)
Definition tampered_message : jws_Message :=
  {| msg_alg := "ES384"; msg_signing_input := "hdr.acme";
     msg_signature := "sig(hdr.legacy)"; msg_token := acme_token |}.

(** The license strings the sample decoder knows. *)
Definition licenses : list (string * jws_Message) :=
  [ ("acme", message_of acme_token "acme");
    ("legacy", message_of legacy_token "legacy");
    ("expired", message_of expired_token "expired");
    ("fractional", message_of fractional_token "fractional");
    ("numeric-did", message_of numeric_did_token "numeric-did");
    ("tampered", tampered_message) ].

Fixpoint assoc (k : string) (l : list (string * jws_Message)) : option jws_Message :=
  match l with
  | [] => None
  | (k', v) :: l' => if String.eqb k k' then Some v else assoc k l'
  end.

Definition codec : TokenCodec :=
  {| decode_compact := fun s => assoc s licenses;
     signature_matches := fun alg key input sig =>
       String.eqb alg "ES384" && bool_decide (key = issuer_key)
       && String.eqb sig ("sig(" +:+ input +:+ ")");
     clock_Now := now;
     cause_Error := fun cause =>
       match cause with
       | MalformedToken => "invalid compact serialization"
       | NoVerificationKey => "no key to verify with"
       | SignatureAlgorithmMismatch => "algorithm mismatch"
       | InvalidSignature => "failed to verify signature"
       | Expired => "exp not satisfied"
       | NotYetValid => "nbf not satisfied"
       | Rejected reason => reason
       end |}.

Definition jwt : jwx_jwt := @spec_jwt codec.

(** The verifier built from the production key in the sample
    environment. *)
Definition verifier_key : jwk_Key :=
  {| key_Raw := issuer_key; key_fields := {[ "kty" := "EC"; "alg" := "ES384" ]} |}.

Definition verifier : LicenseVerifier := {| keySet := [verifier_key] |}.

End Sample.

(** * Properties *)

(** ** float64 and its conversion to int64 *)

Section Float64.
Context `{Platform}.

Lemma digits2_pos_bound (m : positive) : Z.pos m < 2 ^ Z.pos (digits2_pos m).
Proof.
  induction m as [m IH | m IH |]; cbn [digits2_pos].
  - rewrite Pos2Z.inj_succ, Z.pow_succ_r by lia. lia.
  - rewrite Pos2Z.inj_succ, Z.pow_succ_r by lia. lia.
  - reflexivity.
Qed.

(** The mantissa of a binary64 value has at most 53 bits. *)
Lemma bounded_mantissa (m : positive) (e : Z) :
  bounded prec emax m e = true -> Z.pos m < 2 ^ 53.
Proof.
  unfold bounded, canonical_mantissa, fexp, emin, prec, emax.
  intros Hb. apply andb_true_iff in Hb as [Hc _]. apply Z.eqb_eq in Hc.
  assert (Hd : Z.pos (digits2_pos m) <= 53) by lia.
  eapply Z.lt_le_trans; [apply digits2_pos_bound |].
  apply Z.pow_le_mono_r; lia.
Qed.

(** Discarding the fractional part of a finite float rounds its exact
    value toward zero. *)
Lemma float64_integral_truncate (f : float64) :
  is_finite f = true -> float64_integral f = Some (truncate f).
Proof.
  destruct f as [s | s | | s m e]; cbn; try discriminate; intros _.
  - reflexivity.
  - f_equal. unfold truncate; cbn.
    destruct (Z.le_gt_cases 0 e) as [He | He].
    + rewrite Z.shiftl_mul_pow2 by lia.
      rewrite (Z.max_l e 0), (Z.max_r (- e) 0) by lia.
      cbn. now rewrite Z.quot_1_r.
    + rewrite Z.shiftl_div_pow2 by lia.
      rewrite (Z.max_r e 0), (Z.max_l (- e) 0) by lia.
      rewrite Z.mul_1_r.
      assert (Hp : 0 < 2 ^ (- e)) by (apply Z.pow_pos_nonneg; lia).
      destruct s; cbn [cond_Zopp].
      * rewrite Z.quot_opp_l by lia. f_equal.
        symmetry. apply Z.quot_div_nonneg; lia.
      * symmetry. apply Z.quot_div_nonneg; lia.
Qed.

Lemma int64_of_float64_truncate (f : float64) :
  is_finite f = true -> fits_int64 (truncate f) = true ->
  int64_of_float64 f = truncate f.
Proof.
  intros Hfin Hfit. unfold int64_of_float64.
  now rewrite (float64_integral_truncate f Hfin), Hfit.
Qed.

Lemma has_fraction_finite (f : float64) : has_fraction f = true -> is_finite f = true.
Proof. destruct f; cbn; congruence. Qed.

(** A binary64 value with a fractional part is below [2^53] in magnitude,
    so its integer part is representable. *)
Lemma has_fraction_fits (f : float64) :
  valid_float64 f -> has_fraction f = true -> fits_int64 (truncate f) = true.
Proof.
  destruct f as [s | s | | s m e]; cbn; try discriminate.
  unfold valid_float64; cbn. intros Hb Hf.
  apply andb_true_iff in Hf as [He _]. apply Z.ltb_lt in He.
  pose proof (bounded_mantissa m e Hb) as Hm.
  unfold truncate; cbn.
  rewrite (Z.max_r e 0), (Z.max_l (- e) 0), Z.mul_1_r by lia.
  assert (Hp : 0 < 2 ^ (- e)) by (apply Z.pow_pos_nonneg; lia).
  assert (Hq : 0 <= Z.pos m ÷ 2 ^ (- e) <= Z.pos m).
  { rewrite Z.quot_div_nonneg by lia. split.
    - apply Z.div_pos; lia.
    - apply Z.div_le_upper_bound; nia. }
  unfold fits_int64, min_int64, max_int64.
  assert (H53 : 2 ^ 53 < 2 ^ 63) by (apply Z.pow_lt_mono_r; lia).
  destruct s; cbn [cond_Zopp].
  - rewrite Z.quot_opp_l by lia.
    apply andb_true_iff; split; [apply Z.leb_le | apply Z.leb_le]; lia.
  - apply andb_true_iff; split; [apply Z.leb_le | apply Z.leb_le]; lia.
Qed.

Lemma int64_of_fraction (f : float64) :
  valid_float64 f -> has_fraction f = true -> int64_of_float64 f = truncate f.
Proof.
  intros Hv Hf. apply int64_of_float64_truncate.
  - now apply has_fraction_finite.
  - now apply has_fraction_fits.
Qed.

Lemma float64_is_Z_truncate (f : float64) (n : Z) :
  float64_is_Z f n -> truncate f = n.
Proof.
  intros [_ Hn]. unfold truncate. rewrite Hn.
  apply Z.quot_mul. destruct f; cbn; lia.
Qed.

Lemma int64_of_float64_is_Z (f : float64) (n : Z) :
  float64_is_Z f n -> fits_int64 n = true -> int64_of_float64 f = n.
Proof.
  intros Hn Hfit. pose proof (float64_is_Z_truncate f n Hn) as Ht.
  rewrite <- Ht. apply int64_of_float64_truncate; [apply Hn | now rewrite Ht].
Qed.

(** A float that is a non-negative integer is not below zero. *)
Lemma float64_is_Z_nonneg (f : float64) (n : Z) :
  float64_is_Z f n -> 0 <= n -> float64_lt f float64_zero = false.
Proof.
  intros [Hfin Hn] Hpos. destruct f as [s | s | | s m e]; try discriminate.
  - reflexivity.
  - destruct s; [| reflexivity]. exfalso. cbn in Hn.
    assert (0 < 2 ^ Z.max e 0) by (apply Z.pow_pos_nonneg; lia).
    assert (0 < 2 ^ Z.max (- e) 0) by (apply Z.pow_pos_nonneg; lia).
    nia.
Qed.

End Float64.

(** ** Claims extraction *)

Section Extraction.
Context `{Platform}.

Lemma map_index_Some (m : gmap string any) (k : string) (v : any) :
  m !! k = Some v -> map_index m k = v.
Proof. unfold map_index. now intros ->. Qed.

Lemma map_index_None (m : gmap string any) (k : string) :
  m !! k = None -> map_index m k = AnyNil.
Proof. unfold map_index. now intros ->. Qed.

Lemma map_index_delete_eq (m : gmap string any) (k : string) :
  map_index (delete k m) k = AnyNil.
Proof. unfold map_index. now rewrite lookup_delete_eq. Qed.

Lemma map_index_delete_ne (m : gmap string any) (k k' : string) :
  k <> k' -> map_index (delete k m) k' = map_index m k'.
Proof. intros Hk. unfold map_index. now rewrite lookup_delete_ne. Qed.

(** A value that is not a float64 fails the assertion to float64. *)
Lemma assert_float64_other (v : any) :
  (forall f, v <> AnyFloat64 f) -> assert_float64 v = (float64_zero, false).
Proof. destruct v; try reflexivity. intros Hv. now destruct (Hv f). Qed.

Lemma assert_string_other (v : any) :
  (forall s, v <> AnyString s) -> assert_string v = ("", false).
Proof. destruct v; try reflexivity. intros Hv. now destruct (Hv s). Qed.

Lemma assert_float64_not_at (claims : gmap string any) (k : string) :
  not_float64_at claims k -> assert_float64 (map_index claims k) = (float64_zero, false).
Proof.
  intros [Hk | [v [Hk Hv]]].
  - now rewrite (map_index_None _ _ Hk).
  - rewrite (map_index_Some _ _ _ Hk). now apply assert_float64_other.
Qed.

Lemma assert_string_not_at (claims : gmap string any) (k : string) :
  not_string_at claims k -> assert_string (map_index claims k) = ("", false).
Proof.
  intros [Hk | [v [Hk Hv]]].
  - now rewrite (map_index_None _ _ Hk).
  - rewrite (map_index_Some _ _ _ Hk). now apply assert_string_other.
Qed.

(** Extraction on a claim set whose four required claims have their
    types and whose account id is not negative. *)
Lemma toLicenseInfo_ok (token : jwt_Token) (claims : gmap string any)
    (accID storageCap : float64) (orgName planName : string) :
  AsMap token = Ok claims ->
  claims !! accountID = Some (AnyFloat64 accID) ->
  float64_lt accID float64_zero = false ->
  claims !! organization = Some (AnyString orgName) ->
  claims !! capacity = Some (AnyFloat64 storageCap) ->
  claims !! plan = Some (AnyString planName) ->
  toLicenseInfo token =
    ({| Email := Subject token;
        Organization := orgName;
        AccountID := int64_of_float64 accID;
        DeploymentID := (assert_string (map_index claims deploymentID)).1;
        StorageCapacity := int64_of_float64 storageCap;
        Plan := planName;
        ExpiresAt := Expiration token |}, None).
Proof.
  intros Hmap Haid Hneg Horg Hcap Hplan. unfold toLicenseInfo. rewrite Hmap.
  rewrite (map_index_Some _ _ _ Haid), (map_index_Some _ _ _ Horg),
    (map_index_Some _ _ _ Hcap), (map_index_Some _ _ _ Hplan).
  cbn. rewrite Hneg. cbn.
  now destruct (assert_string (map_index claims deploymentID)).
Qed.

(** The account id is checked first. *)
Lemma toLicenseInfo_invalid_accountId (token : jwt_Token) (claims : gmap string any) :
  AsMap token = Ok claims ->
  not_float64_at claims accountID
  \/ (exists f, claims !! accountID = Some (AnyFloat64 f)
                /\ float64_lt f float64_zero = true) ->
  toLicenseInfo token = (LicenseInfo_zero, Some "Invalid accountId in claims").
Proof.
  intros Hmap Hbad. unfold toLicenseInfo. rewrite Hmap.
  destruct Hbad as [Hno | [f [Hk Hlt]]].
  - now rewrite (assert_float64_not_at _ _ Hno).
  - rewrite (map_index_Some _ _ _ Hk). cbn. now rewrite Hlt.
Qed.

End Extraction.

Section ExtractionClaims.
Context `{Platform}.

(** C2. When the account-id claim [aid] of a token is absent, is not a
    number, or is a negative number, claims extraction fails with the
    invalid-accountId error and returns no license information (the zero
    [LicenseInfo]). An [aid] of exactly 0 passes the check: extraction
    does not report the accountId error, any license information it
    returns has account id 0, and it does return one when the other
    claims are in order. *)
Theorem toLicenseInfo_accountId (token : jwt_Token) (claims : gmap string any) :
  AsMap token = Ok claims ->
  (not_float64_at claims accountID
   \/ (exists f, claims !! accountID = Some (AnyFloat64 f)
                 /\ float64_lt f float64_zero = true) ->
   toLicenseInfo token = (LicenseInfo_zero, Some "Invalid accountId in claims"))
  /\ (forall s, claims !! accountID = Some (AnyFloat64 (S754_zero s)) ->
      (toLicenseInfo token).2 <> Some "Invalid accountId in claims"
      /\ (forall info, toLicenseInfo token = (info, None) -> AccountID info = 0)
      /\ (forall orgName storageCap planName,
            claims !! organization = Some (AnyString orgName) ->
            claims !! capacity = Some (AnyFloat64 storageCap) ->
            claims !! plan = Some (AnyString planName) ->
            exists info, toLicenseInfo token = (info, None))).
Proof.
  intros Hmap. split.
  - now apply toLicenseInfo_invalid_accountId.
  - intros s Haid. split; [| split].
    + unfold toLicenseInfo. rewrite Hmap.
      rewrite (map_index_Some _ _ _ Haid). cbn.
      destruct (assert_string (map_index claims deploymentID)) as [depUUID okd].
      destruct (assert_string (map_index claims organization)) as [orgName [|]];
        cbn; [| discriminate].
      destruct (assert_float64 (map_index claims capacity)) as [storageCap [|]];
        cbn; [| discriminate].
      destruct (assert_string (map_index claims plan)) as [planName [|]];
        cbn; discriminate.
    + unfold toLicenseInfo. rewrite Hmap.
      rewrite (map_index_Some _ _ _ Haid). cbn.
      destruct (assert_string (map_index claims deploymentID)) as [depUUID okd].
      destruct (assert_string (map_index claims organization)) as [orgName [|]];
        cbn; [| discriminate].
      destruct (assert_float64 (map_index claims capacity)) as [storageCap [|]];
        cbn; [| discriminate].
      destruct (assert_string (map_index claims plan)) as [planName [|]];
        cbn; [| discriminate].
      intros info [= <-]. now destruct s.
    + intros orgName storageCap planName Horg Hcap Hplan. eexists.
      apply (toLicenseInfo_ok token claims (S754_zero s) storageCap orgName planName
               Hmap Haid); [now destruct s | assumption ..].
Qed.

(** C9. When the [aid] or [cap] claim of a token that passes the other
    checks is a number with a fractional part, extraction succeeds, and
    the [AccountID] or [StorageCapacity] it returns is that number
    rounded toward zero. *)
Theorem toLicenseInfo_fractional (token : jwt_Token) (claims : gmap string any)
    (accID storageCap : float64) (orgName planName : string) :
  AsMap token = Ok claims ->
  claims !! accountID = Some (AnyFloat64 accID) ->
  claims !! capacity = Some (AnyFloat64 storageCap) ->
  claims !! organization = Some (AnyString orgName) ->
  claims !! plan = Some (AnyString planName) ->
  valid_float64 accID -> valid_float64 storageCap ->
  float64_lt accID float64_zero = false ->
  exists info,
    toLicenseInfo token = (info, None)
    /\ (has_fraction accID = true -> AccountID info = truncate accID)
    /\ (has_fraction storageCap = true -> StorageCapacity info = truncate storageCap).
Proof.
  intros Hmap Haid Hcap Horg Hplan Hva Hvc Hneg.
  eexists. split.
  - exact (toLicenseInfo_ok token claims accID storageCap orgName planName
             Hmap Haid Hneg Horg Hcap Hplan).
  - cbn. split; intros Hf; now apply int64_of_fraction.
Qed.

(** C10. When the deployment-id claim [did] of a token is present but is
    not a string, extraction treats the token exactly as if the claim
    were absent: it gives the same result as on the claim set without
    [did], whatever it returns has an empty [DeploymentID], and on a
    token that passes the other checks it succeeds. *)
Theorem toLicenseInfo_deploymentId_not_string (token : jwt_Token)
    (claims : gmap string any) (v : any) :
  AsMap token = Ok claims ->
  claims !! deploymentID = Some v ->
  (forall s, v <> AnyString s) ->
  toLicenseInfo token = toLicenseInfo (with_claims token (delete deploymentID claims))
  /\ (forall info err, toLicenseInfo token = (info, err) -> DeploymentID info = "")
  /\ (forall accID storageCap orgName planName,
        claims !! accountID = Some (AnyFloat64 accID) ->
        float64_lt accID float64_zero = false ->
        claims !! organization = Some (AnyString orgName) ->
        claims !! capacity = Some (AnyFloat64 storageCap) ->
        claims !! plan = Some (AnyString planName) ->
        toLicenseInfo token =
          ({| Email := Subject token;
              Organization := orgName;
              AccountID := int64_of_float64 accID;
              DeploymentID := "";
              StorageCapacity := int64_of_float64 storageCap;
              Plan := planName;
              ExpiresAt := Expiration token |}, None)).
Proof.
  intros Hmap Hdid Hv.
  assert (Hd : assert_string (map_index claims deploymentID) = ("", false)).
  { rewrite (map_index_Some _ _ _ Hdid). now apply assert_string_other. }
  split; [| split].
  - unfold toLicenseInfo, with_claims. cbn. rewrite Hmap, Hd.
    rewrite map_index_delete_eq.
    rewrite (map_index_delete_ne claims deploymentID accountID),
      (map_index_delete_ne claims deploymentID organization),
      (map_index_delete_ne claims deploymentID capacity),
      (map_index_delete_ne claims deploymentID plan) by discriminate.
    reflexivity.
  - intros info err. unfold toLicenseInfo. rewrite Hmap, Hd.
    destruct (assert_float64 (map_index claims accountID)) as [accID ok1].
    destruct (negb ok1 || ok1 && float64_lt accID float64_zero);
      [intros [= <- _]; reflexivity |].
    destruct (assert_string (map_index claims organization)) as [orgName [|]];
      cbn; [| intros [= <- _]; reflexivity].
    destruct (assert_float64 (map_index claims capacity)) as [storageCap [|]];
      cbn; [| intros [= <- _]; reflexivity].
    destruct (assert_string (map_index claims plan)) as [planName [|]];
      cbn; intros [= <- _]; reflexivity.
  - intros accID storageCap orgName planName Haid Hneg Horg Hcap Hplan.
    rewrite (toLicenseInfo_ok token claims accID storageCap orgName planName
               Hmap Haid Hneg Horg Hcap Hplan).
    now rewrite Hd.
Qed.

End ExtractionClaims.

(** The account ids -1 and "42" and a missing account id are rejected. *)
Lemma toLicenseInfo_accountId_witness :
  float64_lt (float64_of_Z (-1)) float64_zero = true
  /\ @toLicenseInfo Sample.platform Sample.negative_aid_token
     = (LicenseInfo_zero, Some "Invalid accountId in claims")
  /\ @toLicenseInfo Sample.platform
       (Sample.token_of (<[ "aid" := AnyString "42" ]> Sample.acme_claims) Sample.now)
     = (LicenseInfo_zero, Some "Invalid accountId in claims")
  /\ @toLicenseInfo Sample.platform
       (Sample.token_of (delete "aid" Sample.acme_claims) Sample.now)
     = (LicenseInfo_zero, Some "Invalid accountId in claims").
Proof.
  split; [reflexivity |]. split; [| split].
  - apply (proj1 (@toLicenseInfo_accountId Sample.platform
                    Sample.negative_aid_token _ eq_refl)).
    right. exists (float64_of_Z (-1)). split; vm_compute; reflexivity.
  - apply (proj1 (@toLicenseInfo_accountId Sample.platform
                    (Sample.token_of (<[ "aid" := AnyString "42" ]> Sample.acme_claims)
                       Sample.now) _ eq_refl)).
    left. right. exists (AnyString "42"). split; [vm_compute; reflexivity |].
    intros f. discriminate.
  - apply (proj1 (@toLicenseInfo_accountId Sample.platform
                    (Sample.token_of (delete "aid" Sample.acme_claims) Sample.now)
                    _ eq_refl)).
    left. left. vm_compute; reflexivity.
Defined.

(** The account id 42.9 becomes 42 and the capacity -3.5 becomes -3. *)
Lemma toLicenseInfo_fractional_witness :
  exists info,
    @toLicenseInfo Sample.platform Sample.fractional_token = (info, None)
    /\ AccountID info = 42 /\ StorageCapacity info = -3.
Proof.
  destruct (@toLicenseInfo_fractional Sample.platform Sample.fractional_token _
              (float64_of_ratio 429 10) (float64_of_ratio (-7) 2)
              "Acme" "enterprise" eq_refl)
    as (info & Hinfo & Haid & Hcap); try (vm_compute; reflexivity).
  exists info. split; [exact Hinfo |]. split.
  - rewrite Haid by (vm_compute; reflexivity). vm_compute; reflexivity.
  - rewrite Hcap by (vm_compute; reflexivity). vm_compute; reflexivity.
Defined.

(** The deployment id 7, a number, is read as no deployment id. *)
Lemma toLicenseInfo_deploymentId_not_string_witness :
  @toLicenseInfo Sample.platform Sample.numeric_did_token
  = ({| Email := "ops@acme.example"; Organization := "Acme"; AccountID := 42;
        DeploymentID := ""; StorageCapacity := 100; Plan := "enterprise";
        ExpiresAt := Sample.now + 86400 |}, None).
Proof.
  destruct (@toLicenseInfo_deploymentId_not_string Sample.platform
              Sample.numeric_did_token _ (AnyFloat64 (float64_of_Z 7)) eq_refl)
    as (_ & _ & Hok); [vm_compute; reflexivity | discriminate |].
  rewrite (Hok (float64_of_Z 42) (float64_of_Z 100) "Acme" "enterprise")
    by (vm_compute; reflexivity).
  vm_compute; reflexivity.
Defined.

(** ** Verification *)

Section Verification.
Context `{Platform, jwx_jwt}.

Lemma Verify_parsed (license : string) (options : list jwt_ParseOption)
    (lv : LicenseVerifier) (token : jwt_Token) :
  jwt_ParseString license (parse_options lv options) = Ok token ->
  Verify license options lv = (toLicenseInfo token, lv).
Proof. unfold Verify, parse_options. now intros ->. Qed.

Lemma Verify_rejected (license : string) (options : list jwt_ParseOption)
    (lv : LicenseVerifier) (err : error) :
  jwt_ParseString license (parse_options lv options) = Err err ->
  Verify license options lv
  = ((LicenseInfo_zero, Some ("failed to verify license: " +:+ err)), lv).
Proof. unfold Verify, parse_options. now intros ->. Qed.

Lemma toLicenseInfo_organization_invalid (token : jwt_Token)
    (claims : gmap string any) (accID : float64) :
  AsMap token = Ok claims ->
  claims !! accountID = Some (AnyFloat64 accID) ->
  float64_lt accID float64_zero = false ->
  not_string_at claims organization ->
  toLicenseInfo token = (LicenseInfo_zero, Some "Invalid organization in claims").
Proof.
  intros Hmap Haid Hneg Horg. unfold toLicenseInfo. rewrite Hmap.
  rewrite (map_index_Some _ _ _ Haid). cbn. rewrite Hneg. cbn.
  rewrite (assert_string_not_at _ _ Horg).
  now destruct (assert_string (map_index claims deploymentID)).
Qed.

Lemma toLicenseInfo_capacity_invalid (token : jwt_Token)
    (claims : gmap string any) (accID : float64) (orgName : string) :
  AsMap token = Ok claims ->
  claims !! accountID = Some (AnyFloat64 accID) ->
  float64_lt accID float64_zero = false ->
  claims !! organization = Some (AnyString orgName) ->
  not_float64_at claims capacity ->
  toLicenseInfo token = (LicenseInfo_zero, Some "Invalid storage capacity in claims").
Proof.
  intros Hmap Haid Hneg Horg Hcap. unfold toLicenseInfo. rewrite Hmap.
  rewrite (map_index_Some _ _ _ Haid), (map_index_Some _ _ _ Horg).
  cbn. rewrite Hneg. cbn.
  rewrite (assert_float64_not_at _ _ Hcap).
  now destruct (assert_string (map_index claims deploymentID)).
Qed.

Lemma toLicenseInfo_plan_invalid (token : jwt_Token)
    (claims : gmap string any) (accID storageCap : float64) (orgName : string) :
  AsMap token = Ok claims ->
  claims !! accountID = Some (AnyFloat64 accID) ->
  float64_lt accID float64_zero = false ->
  claims !! organization = Some (AnyString orgName) ->
  claims !! capacity = Some (AnyFloat64 storageCap) ->
  not_string_at claims plan ->
  toLicenseInfo token = (LicenseInfo_zero, Some "Invalid plan in claims").
Proof.
  intros Hmap Haid Hneg Horg Hcap Hplan. unfold toLicenseInfo. rewrite Hmap.
  rewrite (map_index_Some _ _ _ Haid), (map_index_Some _ _ _ Horg),
    (map_index_Some _ _ _ Hcap).
  cbn. rewrite Hneg. cbn.
  rewrite (assert_string_not_at _ _ Hplan).
  now destruct (assert_string (map_index claims deploymentID)).
Qed.

(** Whatever accompanies an error of [toLicenseInfo] is the zero
    [LicenseInfo]. *)
Lemma toLicenseInfo_error_zero (token : jwt_Token) (info : LicenseInfo) (err : error) :
  toLicenseInfo token = (info, Some err) -> info = LicenseInfo_zero.
Proof.
  unfold toLicenseInfo.
  destruct (AsMap token) as [claims | e]; [| now intros [= <- _]].
  destruct (assert_float64 (map_index claims accountID)) as [accID ok1].
  destruct (negb ok1 || ok1 && float64_lt accID float64_zero);
    [now intros [= <- _] |].
  destruct (assert_string (map_index claims deploymentID)) as [depUUID okd].
  destruct (assert_string (map_index claims organization)) as [orgName [|]];
    cbn; [| now intros [= <- _]].
  destruct (assert_float64 (map_index claims capacity)) as [storageCap [|]];
    cbn; [| now intros [= <- _]].
  destruct (assert_string (map_index claims plan)) as [planName [|]];
    cbn; [discriminate | now intros [= <- _]].
Qed.

(** A license that [jwt.ParseString] accepts for the verifier's key set
    with validation enabled, and whose claims are an account id [aid] (a
    non-negative integer), an organization, a capacity [cap] (an
    integer), a plan and a deployment id: [Verify] returns no error and
    a [LicenseInfo] whose fields are those claims, the subject and the
    expiration of the token. *)
Lemma Verify_accepted_license (license : string) (options : list jwt_ParseOption)
    (lv : LicenseVerifier) (token : jwt_Token) (claims : gmap string any)
    (accID storageCap : float64) (aid cap : Z) (org pln did : string) :
  jwt_ParseString license (parse_options lv options) = Ok token ->
  AsMap token = Ok claims ->
  claims !! accountID = Some (AnyFloat64 accID) ->
  float64_is_Z accID aid -> 0 <= aid <= max_int64 ->
  claims !! organization = Some (AnyString org) ->
  claims !! capacity = Some (AnyFloat64 storageCap) ->
  float64_is_Z storageCap cap -> min_int64 <= cap <= max_int64 ->
  claims !! plan = Some (AnyString pln) ->
  claims !! deploymentID = Some (AnyString did) ->
  (Verify license options lv).1 =
    ({| Email := Subject token;
        Organization := org;
        AccountID := aid;
        DeploymentID := did;
        StorageCapacity := cap;
        Plan := pln;
        ExpiresAt := Expiration token |}, None).
Proof.
  intros Hparse Hmap Haid Ha Har Horg Hcap Hc Hcr Hplan Hdid.
  rewrite (Verify_parsed _ _ _ _ Hparse). cbn [fst].
  rewrite (toLicenseInfo_ok token claims accID storageCap org pln
             Hmap Haid (float64_is_Z_nonneg _ _ Ha (proj1 Har)) Horg Hcap Hplan).
  rewrite (map_index_Some _ _ _ Hdid). cbn.
  rewrite (int64_of_float64_is_Z accID aid Ha), (int64_of_float64_is_Z storageCap cap Hc).
  - reflexivity.
  - unfold fits_int64. apply andb_true_iff; split; apply Z.leb_le; lia.
  - unfold fits_int64, min_int64, max_int64 in *.
    apply andb_true_iff; split; apply Z.leb_le; lia.
Qed.

(** C3. On a verified token whose account id is valid, a missing
    deployment-id claim [did] is not an error: when the other claims are
    in order [Verify] succeeds and the [DeploymentID] it returns is
    empty. The organization, storage-capacity and plan claims are strict:
    when one of them is absent or has the wrong type (the claims checked
    before it being in order), [Verify] fails with the error naming that
    field. *)
Theorem Verify_deploymentId_lenient (license : string)
    (options : list jwt_ParseOption) (lv : LicenseVerifier) (token : jwt_Token)
    (claims : gmap string any) (accID : float64) :
  jwt_ParseString license (parse_options lv options) = Ok token ->
  AsMap token = Ok claims ->
  claims !! accountID = Some (AnyFloat64 accID) ->
  float64_lt accID float64_zero = false ->
  (forall orgName storageCap planName,
     claims !! deploymentID = None ->
     claims !! organization = Some (AnyString orgName) ->
     claims !! capacity = Some (AnyFloat64 storageCap) ->
     claims !! plan = Some (AnyString planName) ->
     (Verify license options lv).1 =
       ({| Email := Subject token;
           Organization := orgName;
           AccountID := int64_of_float64 accID;
           DeploymentID := "";
           StorageCapacity := int64_of_float64 storageCap;
           Plan := planName;
           ExpiresAt := Expiration token |}, None))
  /\ (not_string_at claims organization ->
      (Verify license options lv).1
      = (LicenseInfo_zero, Some "Invalid organization in claims"))
  /\ (forall orgName,
        claims !! organization = Some (AnyString orgName) ->
        not_float64_at claims capacity ->
        (Verify license options lv).1
        = (LicenseInfo_zero, Some "Invalid storage capacity in claims"))
  /\ (forall orgName storageCap,
        claims !! organization = Some (AnyString orgName) ->
        claims !! capacity = Some (AnyFloat64 storageCap) ->
        not_string_at claims plan ->
        (Verify license options lv).1
        = (LicenseInfo_zero, Some "Invalid plan in claims")).
Proof.
  intros Hparse Hmap Haid Hneg.
  rewrite (Verify_parsed _ _ _ _ Hparse). cbn [fst].
  split; [| split; [| split]].
  - intros orgName storageCap planName Hdid Horg Hcap Hplan.
    rewrite (toLicenseInfo_ok token claims accID storageCap orgName planName
               Hmap Haid Hneg Horg Hcap Hplan).
    now rewrite (map_index_None _ _ Hdid).
  - intros Horg. eapply toLicenseInfo_organization_invalid; eauto.
  - intros orgName Horg Hcap. eapply toLicenseInfo_capacity_invalid; eauto.
  - intros orgName storageCap Horg Hcap Hplan.
    eapply toLicenseInfo_plan_invalid; eauto.
Qed.

(** C8. When parsing or validation of a license string fails, [Verify]
    returns the zero [LicenseInfo] with an error carrying the cause.
    Claims are extracted only from the token the parser returned for the
    verifier's key set with validation enabled: a result of [Verify] that
    is not that rejection is the result of [toLicenseInfo] on that token.
    Every error of [Verify] comes with the zero [LicenseInfo]. *)
Theorem Verify_no_partial_trust (license : string)
    (options : list jwt_ParseOption) (lv : LicenseVerifier) :
  (forall err,
     jwt_ParseString license (parse_options lv options) = Err err ->
     (Verify license options lv).1
     = (LicenseInfo_zero, Some ("failed to verify license: " +:+ err)))
  /\ (forall token,
        jwt_ParseString license (parse_options lv options) = Ok token ->
        (Verify license options lv).1 = toLicenseInfo token)
  /\ (forall info,
        (Verify license options lv).1 = (info, None) ->
        exists token,
          jwt_ParseString license (parse_options lv options) = Ok token
          /\ toLicenseInfo token = (info, None))
  /\ (forall info err,
        (Verify license options lv).1 = (info, Some err) ->
        info = LicenseInfo_zero).
Proof.
  split; [| split; [| split]].
  - intros err Hparse. now rewrite (Verify_rejected _ _ _ _ Hparse).
  - intros token Hparse. now rewrite (Verify_parsed _ _ _ _ Hparse).
  - intros info.
    destruct (jwt_ParseString license (parse_options lv options))
      as [token | err] eqn:Hparse.
    + rewrite (Verify_parsed _ _ _ _ Hparse). cbn [fst]. intros Hinfo.
      now exists token.
    + rewrite (Verify_rejected _ _ _ _ Hparse). discriminate.
  - intros info err.
    destruct (jwt_ParseString license (parse_options lv options))
      as [token | e] eqn:Hparse.
    + rewrite (Verify_parsed _ _ _ _ Hparse). cbn [fst].
      apply toLicenseInfo_error_zero.
    + rewrite (Verify_rejected _ _ _ _ Hparse). now intros [= <- _].
Qed.

End Verification.

(** A license without deployment id verifies, with an empty
    [DeploymentID]. *)
Lemma Verify_deploymentId_lenient_witness :
  Sample.legacy_claims !! deploymentID = None
  /\ (@Verify Sample.platform Sample.jwt "legacy" [] Sample.verifier).1
     = ({| Email := "ops@acme.example"; Organization := "Acme"; AccountID := 42;
           DeploymentID := ""; StorageCapacity := 100; Plan := "enterprise";
           ExpiresAt := Sample.now + 86400 |}, None).
Proof.
  split; [vm_compute; reflexivity |].
  destruct (@Verify_deploymentId_lenient Sample.platform Sample.jwt
              "legacy" [] Sample.verifier Sample.legacy_token Sample.legacy_claims
              (float64_of_Z 42)
              ltac:(vm_compute; reflexivity) ltac:(vm_compute; reflexivity)
              ltac:(vm_compute; reflexivity) ltac:(vm_compute; reflexivity))
    as (Hok & _).
  rewrite (Hok "Acme" (float64_of_Z 100) "enterprise")
    by (vm_compute; reflexivity).
  vm_compute; reflexivity.
Defined.

(** A string that is no token is rejected with the zero [LicenseInfo]. *)
Lemma Verify_no_partial_trust_witness :
  (@Verify Sample.platform Sample.jwt "nonsense" [] Sample.verifier).1
  = (LicenseInfo_zero,
     Some "failed to verify license: invalid compact serialization").
Proof.
  apply (proj1 (@Verify_no_partial_trust Sample.platform Sample.jwt
                  "nonsense" [] Sample.verifier)).
  vm_compute; reflexivity.
Defined.

(** ** Verification against the token verifier *)

Section TokenVerifier.
Context `{Platform, TokenCodec}.

(** With no caller options, the verifier's key set is the one consulted,
    its key is the default key, and validation is enabled. *)
Lemma default_options_ctx (lv : LicenseVerifier) :
  fold_left ParseCtx_apply (parse_options lv []) ParseCtx_init
  = {| ctx_keySet := Some (keySet lv); ctx_useDefault := true;
       ctx_validate := true; ctx_validators := [] |}.
Proof. reflexivity. Qed.

Lemma token_verifier_accepts (lv : LicenseVerifier) (key : jwk_Key)
    (license : string) (msg : jws_Message) :
  keySet lv = [key] ->
  decode_compact license = Some msg ->
  msg_alg msg = jwk_Key_Algorithm key ->
  signature_matches (msg_alg msg) (key_Raw key)
    (msg_signing_input msg) (msg_signature msg) = true ->
  clock_Now < Expiration (msg_token msg) ->
  time_IsZero (NotBefore (msg_token msg)) = true
  \/ NotBefore (msg_token msg) <= clock_Now ->
  token_verifier license (parse_options lv []) = Ok (msg_token msg).
Proof.
  intros Hks Hdec Halg Hsig Hexp Hnbf.
  unfold token_verifier. rewrite default_options_ctx, Hdec.
  unfold default_key. cbn. rewrite Hks, <- Halg, String.eqb_refl, Hsig. cbn.
  unfold standard_validation. cbn.
  replace (Expiration (msg_token msg) <=? clock_Now) with false
    by (symmetry; apply Z.leb_gt; lia).
  rewrite andb_false_r.
  destruct Hnbf as [-> | Hnbf]; [reflexivity |].
  replace (clock_Now <? NotBefore (msg_token msg)) with false
    by (symmetry; apply Z.ltb_ge; lia).
  now rewrite andb_false_r.
Qed.

Lemma token_verifier_expired (lv : LicenseVerifier) (key : jwk_Key)
    (license : string) (msg : jws_Message) :
  keySet lv = [key] ->
  decode_compact license = Some msg ->
  msg_alg msg = jwk_Key_Algorithm key ->
  signature_matches (msg_alg msg) (key_Raw key)
    (msg_signing_input msg) (msg_signature msg) = true ->
  Expiration (msg_token msg) <> time_zero ->
  Expiration (msg_token msg) < clock_Now ->
  token_verifier license (parse_options lv []) = Err (cause_Error Expired).
Proof.
  intros Hks Hdec Halg Hsig Hset Hexp.
  unfold token_verifier. rewrite default_options_ctx, Hdec.
  unfold default_key. cbn. rewrite Hks, <- Halg, String.eqb_refl, Hsig. cbn.
  unfold standard_validation, time_IsZero.
  replace (Expiration (msg_token msg) =? time_zero) with false
    by (symmetry; apply Z.eqb_neq; exact Hset).
  replace (Expiration (msg_token msg) <=? clock_Now) with true
    by (symmetry; apply Z.leb_le; lia).
  reflexivity.
Qed.

Lemma token_verifier_bad_signature (lv : LicenseVerifier) (key : jwk_Key)
    (license : string) (msg : jws_Message) :
  keySet lv = [key] ->
  decode_compact license = Some msg ->
  msg_alg msg = jwk_Key_Algorithm key ->
  signature_matches (msg_alg msg) (key_Raw key)
    (msg_signing_input msg) (msg_signature msg) = false ->
  token_verifier license (parse_options lv []) = Err (cause_Error InvalidSignature).
Proof.
  intros Hks Hdec Halg Hsig.
  unfold token_verifier. rewrite default_options_ctx, Hdec.
  unfold default_key. cbn. now rewrite Hks, <- Halg, String.eqb_refl, Hsig.
Qed.

(** C1. A license whose token decodes, declares the algorithm bound to
    the verifier's key, carries a signature that matches that key, has
    not expired and is not used before its not-before time, and whose
    claims are an account id [aid] (a non-negative integer), an
    organization, a capacity [cap] (an integer), a plan and a deployment
    id, verifies: [Verify] returns no error and a [LicenseInfo] whose
    fields are those claims, the subject and the expiration of the
    token. *)
Theorem Verify_valid_license (lv : LicenseVerifier) (key : jwk_Key)
    (license : string) (msg : jws_Message) (claims : gmap string any)
    (accID storageCap : float64) (aid cap : Z) (org pln did : string) :
  keySet lv = [key] ->
  decode_compact license = Some msg ->
  msg_alg msg = jwk_Key_Algorithm key ->
  signature_matches (msg_alg msg) (key_Raw key)
    (msg_signing_input msg) (msg_signature msg) = true ->
  clock_Now < Expiration (msg_token msg) ->
  time_IsZero (NotBefore (msg_token msg)) = true
  \/ NotBefore (msg_token msg) <= clock_Now ->
  AsMap (msg_token msg) = Ok claims ->
  claims !! accountID = Some (AnyFloat64 accID) ->
  float64_is_Z accID aid -> 0 <= aid <= max_int64 ->
  claims !! organization = Some (AnyString org) ->
  claims !! capacity = Some (AnyFloat64 storageCap) ->
  float64_is_Z storageCap cap -> min_int64 <= cap <= max_int64 ->
  claims !! plan = Some (AnyString pln) ->
  claims !! deploymentID = Some (AnyString did) ->
  (@Verify _ spec_jwt license [] lv).1 =
    ({| Email := Subject (msg_token msg);
        Organization := org;
        AccountID := aid;
        DeploymentID := did;
        StorageCapacity := cap;
        Plan := pln;
        ExpiresAt := Expiration (msg_token msg) |}, None).
Proof.
  intros Hks Hdec Halg Hsig Hexp Hnbf Hmap Haid Ha Har Horg Hcap Hc Hcr Hplan Hdid.
  apply (@Verify_accepted_license _ spec_jwt license [] lv (msg_token msg) claims
           accID storageCap aid cap org pln did); try assumption.
  cbn. eapply token_verifier_accepts; eauto.
Qed.

(** C4. With no caller options [Verify] enforces the signature and the
    expiry: a properly signed token whose expiration timestamp lies
    strictly before the current time is rejected with the expiry error,
    and a token whose signature does not match the verifier's key is
    rejected with the signature error; either way the [LicenseInfo]
    returned is the zero value. *)
Theorem Verify_expired (lv : LicenseVerifier) (key : jwk_Key)
    (license : string) (msg : jws_Message) :
  keySet lv = [key] ->
  decode_compact license = Some msg ->
  msg_alg msg = jwk_Key_Algorithm key ->
  (signature_matches (msg_alg msg) (key_Raw key)
     (msg_signing_input msg) (msg_signature msg) = true ->
   Expiration (msg_token msg) <> time_zero ->
   Expiration (msg_token msg) < clock_Now ->
   (@Verify _ spec_jwt license [] lv).1
   = (LicenseInfo_zero,
      Some ("failed to verify license: " +:+ cause_Error Expired)))
  /\ (signature_matches (msg_alg msg) (key_Raw key)
        (msg_signing_input msg) (msg_signature msg) = false ->
      (@Verify _ spec_jwt license [] lv).1
      = (LicenseInfo_zero,
         Some ("failed to verify license: " +:+ cause_Error InvalidSignature))).
Proof.
  intros Hks Hdec Halg. split.
  - intros Hsig Hset Hexp.
    now rewrite (@Verify_rejected _ spec_jwt license [] lv (cause_Error Expired))
      by (cbn; eapply token_verifier_expired; eauto).
  - intros Hsig.
    now rewrite (@Verify_rejected _ spec_jwt license [] lv (cause_Error InvalidSignature))
      by (cbn; eapply token_verifier_bad_signature; eauto).
Qed.

End TokenVerifier.

(** The license of Acme: account 42, capacity 100, plan enterprise,
    deployment dep-123, signed by the issuer and expiring in a day. *)
Lemma Verify_valid_license_witness :
  (@Verify Sample.platform (@spec_jwt Sample.codec) "acme" [] Sample.verifier).1
  = ({| Email := "ops@acme.example"; Organization := "Acme"; AccountID := 42;
        DeploymentID := "dep-123"; StorageCapacity := 100; Plan := "enterprise";
        ExpiresAt := Sample.now + 86400 |}, None).
Proof.
  apply (@Verify_valid_license Sample.platform Sample.codec Sample.verifier
           Sample.verifier_key "acme" (Sample.message_of Sample.acme_token "acme")
           Sample.acme_claims (float64_of_Z 42) (float64_of_Z 100)
           42 100 "Acme" "enterprise" "dep-123").
  - reflexivity.
  - vm_compute; reflexivity.
  - vm_compute; reflexivity.
  - vm_compute; reflexivity.
  - cbn. unfold Sample.now. lia.
  - left. vm_compute; reflexivity.
  - reflexivity.
  - vm_compute; reflexivity.
  - split; vm_compute; reflexivity.
  - unfold max_int64. lia.
  - vm_compute; reflexivity.
  - vm_compute; reflexivity.
  - split; vm_compute; reflexivity.
  - unfold min_int64, max_int64. lia.
  - vm_compute; reflexivity.
  - vm_compute; reflexivity.
Defined.

(** A license that expired a second ago is rejected, and so is a license
    whose signature was made over another payload. *)
Lemma Verify_expired_witness :
  Expiration Sample.expired_token < Sample.now
  /\ (@Verify Sample.platform (@spec_jwt Sample.codec) "expired" [] Sample.verifier).1
     = (LicenseInfo_zero, Some "failed to verify license: exp not satisfied")
  /\ (@Verify Sample.platform (@spec_jwt Sample.codec) "tampered" [] Sample.verifier).1
     = (LicenseInfo_zero, Some "failed to verify license: failed to verify signature").
Proof.
  split; [cbn; unfold Sample.now; lia |]. split.
  - apply (proj1 (@Verify_expired Sample.platform Sample.codec Sample.verifier
                    Sample.verifier_key "expired"
                    (Sample.message_of Sample.expired_token "expired")
                    eq_refl eq_refl eq_refl)).
    + vm_compute; reflexivity.
    + vm_compute; discriminate.
    + cbn. unfold Sample.now. lia.
  - apply (proj2 (@Verify_expired Sample.platform Sample.codec Sample.verifier
                    Sample.verifier_key "tampered" Sample.tampered_message
                    eq_refl eq_refl eq_refl)).
    vm_compute; reflexivity.
Defined.

(** ** Key loading, construction and deployment matching *)

Section Construction.
Context `{Platform, encoding_pem, crypto_x509, jwx_jwk, jwx_jwt, pkg_env}.

Lemma assert_ecdsa_checked (parsedKey : crypto_PublicKey) :
  key_type_checked parsedKey
    match assert_ecdsa parsedKey with
    | Some pkey => Ok pkey
    | None => Err (errors_New "key is not a valid RSA public key")
    end.
Proof.
  split.
  - now intros pkey ->.
  - intros Hne. destruct parsedKey as [k | | | |]; try reflexivity.
    now destruct (Hne k).
Qed.

(** C6. The key loader fails with the key-format error when no PEM block
    is found in the blob. Otherwise it parses the bytes of the block as a
    PKIX public key; when that fails it parses them as an X.509
    certificate and takes the certificate's public key; when both fail it
    returns the error of the certificate parser. A key so obtained is
    returned when it is an ECDSA key and refused with the key-type error
    otherwise. *)
Theorem parseECPublicKeyFromPEM_contract (key : string) :
  ((pem_Decode key).1 = None ->
   parseECPublicKeyFromPEM key
   = Err "key must be a PEM encoded PKCS1 or PKCS8 key")
  /\ (forall block,
        (pem_Decode key).1 = Some block ->
        (forall parsedKey,
           x509_ParsePKIXPublicKey (pem_Bytes block) = Ok parsedKey ->
           key_type_checked parsedKey (parseECPublicKeyFromPEM key))
        /\ (forall e cert,
              x509_ParsePKIXPublicKey (pem_Bytes block) = Err e ->
              x509_ParseCertificate (pem_Bytes block) = Ok cert ->
              key_type_checked (cert_PublicKey cert) (parseECPublicKeyFromPEM key))
        /\ (forall e e',
              x509_ParsePKIXPublicKey (pem_Bytes block) = Err e ->
              x509_ParseCertificate (pem_Bytes block) = Err e' ->
              parseECPublicKeyFromPEM key = Err e')).
Proof.
  unfold parseECPublicKeyFromPEM. split.
  - now intros ->.
  - intros block ->. split; [| split].
    + intros parsedKey ->. apply assert_ecdsa_checked.
    + intros e cert -> ->. apply assert_ecdsa_checked.
    + now intros e e' -> ->.
Qed.

Lemma jwk_Set_Add_new (key : jwk_Key) : jwk_Set_Add jwk_NewSet key = [key].
Proof.
  unfold jwk_Set_Add, jwk_NewSet.
  destruct (decide (key ∈ [])) as [Hin | _]; [| reflexivity].
  now apply elem_of_nil in Hin.
Qed.

Lemma jwk_Key_Set_Algorithm (key : jwk_Key) (alg : string) :
  jwk_Key_Algorithm (jwk_Key_Set key jwk_AlgorithmKey alg) = alg.
Proof. unfold jwk_Key_Algorithm, jwk_Key_Set. cbn. now rewrite lookup_insert_eq. Qed.

(** [Verify] leaves its receiver as it found it. *)
Lemma Verify_receiver (license : string) (options : list jwt_ParseOption)
    (lv : LicenseVerifier) :
  (Verify license options lv).2 = lv.
Proof.
  unfold Verify.
  now destruct (jwt_ParseString license
                  (options ++ [jwt_WithKeySet (keySet lv); jwt_UseDefaultKey true;
                               jwt_WithValidate true])).
Qed.

(** C7. When construction succeeds, the key set of the verifier holds
    exactly one key: the JWK made from the loaded key with its algorithm
    field set to ES384, whatever algorithm the JWK announced before.
    [Verify] hands the verifier back with that key set unchanged. *)
Theorem NewLicenseVerifier_key_set (pemBytes : string) (lv : LicenseVerifier) :
  NewLicenseVerifier pemBytes = Ok lv ->
  (exists pbKey key,
     parseECPublicKeyFromPEM pemBytes = Ok pbKey
     /\ jwk_New pbKey = Ok key
     /\ keySet lv = [jwk_Key_Set key jwk_AlgorithmKey jwa_ES384])
  /\ length (keySet lv) = 1%nat
  /\ (forall k, k ∈ keySet lv -> jwk_Key_Algorithm k = jwa_ES384)
  /\ (forall license options,
        keySet (Verify license options lv).2 = keySet lv).
Proof.
  unfold NewLicenseVerifier.
  destruct (parseECPublicKeyFromPEM pemBytes) as [pbKey | e] eqn:Hparse;
    [| discriminate].
  destruct (jwk_New pbKey) as [key | e] eqn:Hnew; [| discriminate].
  rewrite jwk_Set_Add_new. intros [= <-]. cbn [keySet].
  split; [| split; [| split]].
  - now exists pbKey, key.
  - reflexivity.
  - intros k Hk. apply list_elem_of_singleton in Hk as ->.
    apply jwk_Key_Set_Algorithm.
  - intros license options. now rewrite Verify_receiver.
Qed.

(** C5. [VerifyClusterLicense] returns the error of the construction of
    the verifier, or else the error of [Verify], as they are. When both
    succeed it compares the [DeploymentID] of the license with the
    expected id: it fails with the deployment-mismatch error when the two
    strings differ and succeeds when they are equal. *)
Theorem VerifyClusterLicense_deployment (lic depID : string)
    (options : list jwt_ParseOption) :
  (forall e,
     NewLicenseVerifier clusterPublicKey = Err e ->
     VerifyClusterLicense lic depID options = Some e)
  /\ (forall lv,
        NewLicenseVerifier clusterPublicKey = Ok lv ->
        (forall info e,
           (Verify lic options lv).1 = (info, Some e) ->
           VerifyClusterLicense lic depID options = Some e)
        /\ (forall info,
              (Verify lic options lv).1 = (info, None) ->
              (DeploymentID info <> depID ->
               VerifyClusterLicense lic depID options
               = Some "Invalid license - deployment ID doesn't match")
              /\ (DeploymentID info = depID ->
                  VerifyClusterLicense lic depID options = None))).
Proof.
  unfold VerifyClusterLicense, clusterPublicKey. split.
  - now intros e ->.
  - intros lv ->. split.
    + now intros info e ->.
    + intros info ->. split.
      * intros Hne. apply String.eqb_neq in Hne. now rewrite Hne.
      * intros Heq. apply String.eqb_eq in Heq. now rewrite Heq.
Qed.

End Construction.

(** The four outcomes of the key loader: no framing, a key that is not an
    ECDSA key, a certificate, and a block neither parser accepts. *)
Lemma parseECPublicKeyFromPEM_contract_witness :
  @parseECPublicKeyFromPEM Sample.pem Sample.x509 "not-a-key"
  = Err "key must be a PEM encoded PKCS1 or PKCS8 key"
  /\ @parseECPublicKeyFromPEM Sample.pem Sample.x509 Sample.rsaPublicKey
     = Err "key is not a valid RSA public key"
  /\ @parseECPublicKeyFromPEM Sample.pem Sample.x509 Sample.certificate
     = Ok Sample.issuer_key
  /\ @parseECPublicKeyFromPEM Sample.pem Sample.x509 Sample.garbage
     = Err "x509: malformed certificate".
Proof.
  split; [| split; [| split]].
  - apply (proj1 (@parseECPublicKeyFromPEM_contract Sample.pem Sample.x509 "not-a-key")).
    reflexivity.
  - destruct (proj2 (@parseECPublicKeyFromPEM_contract Sample.pem Sample.x509
                       Sample.rsaPublicKey) _ eq_refl) as (Hpkix & _ & _).
    apply (proj2 (Hpkix (KeyRSA {| rsa_N := 3233; rsa_E := 17 |}) eq_refl)).
    discriminate.
  - destruct (proj2 (@parseECPublicKeyFromPEM_contract Sample.pem Sample.x509
                       Sample.certificate) _ eq_refl) as (_ & Hcert & _).
    apply (proj1 (Hcert "x509: failed to parse public key"
                    {| cert_Raw := Sample.certificate;
                       cert_PublicKey := KeyECDSA Sample.issuer_key |}
                    eq_refl eq_refl)).
    reflexivity.
  - destruct (proj2 (@parseECPublicKeyFromPEM_contract Sample.pem Sample.x509
                       Sample.garbage) _ eq_refl) as (_ & _ & Hnone).
    apply (Hnone "x509: failed to parse public key"); reflexivity.
Defined.

(** The verifier made from the production key holds one key, bound to
    ES384 although its JWK announced ES256. *)
Lemma NewLicenseVerifier_key_set_witness :
  @NewLicenseVerifier Sample.pem Sample.x509 Sample.jwk prodPublicKey
  = Ok Sample.verifier
  /\ length (keySet Sample.verifier) = 1%nat
  /\ (forall k, k ∈ keySet Sample.verifier -> jwk_Key_Algorithm k = "ES384").
Proof.
  assert (Hnew : @NewLicenseVerifier Sample.pem Sample.x509 Sample.jwk prodPublicKey
                 = Ok Sample.verifier) by (vm_compute; reflexivity).
  destruct (@NewLicenseVerifier_key_set Sample.platform Sample.pem Sample.x509
              Sample.jwk Sample.jwt prodPublicKey Sample.verifier Hnew)
    as (_ & Hlen & Halg & _).
  split; [exact Hnew |]. split; [exact Hlen | exact Halg].
Defined.

(** The license of deployment dep-123 is refused for dep-999 and for
    DEP-123, and accepted for dep-123. *)
Lemma VerifyClusterLicense_deployment_witness :
  @VerifyClusterLicense Sample.platform Sample.pem Sample.x509 Sample.jwk
    Sample.jwt Sample.env "acme" "dep-999" []
  = Some "Invalid license - deployment ID doesn't match"
  /\ @VerifyClusterLicense Sample.platform Sample.pem Sample.x509 Sample.jwk
       Sample.jwt Sample.env "acme" "DEP-123" []
     = Some "Invalid license - deployment ID doesn't match"
  /\ @VerifyClusterLicense Sample.platform Sample.pem Sample.x509 Sample.jwk
       Sample.jwt Sample.env "acme" "dep-123" []
     = None.
Proof.
  assert (Hnew : @NewLicenseVerifier Sample.pem Sample.x509 Sample.jwk
                   (@clusterPublicKey Sample.env)
                 = Ok Sample.verifier) by (vm_compute; reflexivity).
  assert (Hver : (@Verify Sample.platform Sample.jwt "acme" [] Sample.verifier).1
                 = ({| Email := "ops@acme.example"; Organization := "Acme";
                       AccountID := 42; DeploymentID := "dep-123";
                       StorageCapacity := 100; Plan := "enterprise";
                       ExpiresAt := Sample.now + 86400 |}, None))
    by (vm_compute; reflexivity).
  split; [| split].
  - destruct (proj2 (@VerifyClusterLicense_deployment Sample.platform Sample.pem
                       Sample.x509 Sample.jwk Sample.jwt Sample.env
                       "acme" "dep-999" []) _ Hnew) as (_ & Hcmp).
    apply (proj1 (Hcmp _ Hver)). discriminate.
  - destruct (proj2 (@VerifyClusterLicense_deployment Sample.platform Sample.pem
                       Sample.x509 Sample.jwk Sample.jwt Sample.env
                       "acme" "DEP-123" []) _ Hnew) as (_ & Hcmp).
    apply (proj1 (Hcmp _ Hver)). discriminate.
  - destruct (proj2 (@VerifyClusterLicense_deployment Sample.platform Sample.pem
                       Sample.x509 Sample.jwk Sample.jwt Sample.env
                       "acme" "dep-123" []) _ Hnew) as (_ & Hcmp).
    apply (proj2 (Hcmp _ Hver)). reflexivity.
Defined.

(** * Further properties *)

(** ** Integers through float64 *)

Section Float64Integers.
Context `{Platform}.

Lemma digits2_pos_lower (m : positive) : 2 ^ (Z.pos (digits2_pos m) - 1) <= Z.pos m.
Proof.
  induction m as [m IH | m IH |]; cbn [digits2_pos].
  - rewrite Pos2Z.inj_succ.
    replace (Z.succ (Z.pos (digits2_pos m)) - 1)
      with (Z.succ (Z.pos (digits2_pos m) - 1)) by lia.
    rewrite Z.pow_succ_r by lia. lia.
  - rewrite Pos2Z.inj_succ.
    replace (Z.succ (Z.pos (digits2_pos m)) - 1)
      with (Z.succ (Z.pos (digits2_pos m) - 1)) by lia.
    rewrite Z.pow_succ_r by lia. lia.
  - reflexivity.
Qed.

Lemma digits2_pos_le_53 (m : positive) :
  Z.pos m < 2 ^ 53 -> Z.pos (digits2_pos m) <= 53.
Proof.
  intros Hm. destruct (Z.le_gt_cases (Z.pos (digits2_pos m)) 53) as [Hd | Hd];
    [exact Hd | exfalso].
  pose proof (digits2_pos_lower m) as Hl.
  assert (2 ^ 53 <= 2 ^ (Z.pos (digits2_pos m) - 1))
    by (apply Z.pow_le_mono_r; lia).
  lia.
Qed.

Lemma iter_xO_digits (m d : positive) :
  digits2_pos (Pos.iter xO m d) = (digits2_pos m + d)%positive.
Proof.
  induction d as [| d IH] using Pos.peano_ind.
  - cbn. now rewrite Pos.add_1_r.
  - rewrite Pos.iter_succ. cbn [digits2_pos]. rewrite IH. lia.
Qed.

Lemma iter_xO_value (m d : positive) :
  Z.pos (Pos.iter xO m d) = Z.pos m * 2 ^ Z.pos d.
Proof.
  induction d as [| d IH] using Pos.peano_ind.
  - cbn. lia.
  - rewrite Pos.iter_succ, Pos2Z.inj_xO, IH, Pos2Z.inj_succ, Z.pow_succ_r by lia.
    lia.
Qed.

(** A mantissa of 53 bits with an exponent in range is kept as it is. *)
Lemma binary_round_aux_exact (s : bool) (m : positive) (e : Z) :
  Z.pos (digits2_pos m) = 53 -> -1074 <= e <= 971 ->
  binary_round_aux prec emax s (Z.pos m) e loc_Exact = S754_finite s m e.
Proof.
  intros Hd He.
  assert (Hshift : fexp prec emax (Zdigits2 (Z.pos m) + e) - e = 0).
  { unfold fexp, emin, prec, emax. cbn [Zdigits2]. lia. }
  unfold binary_round_aux, shr_fexp. rewrite Hshift. cbn [shr shr_record_of_loc].
  cbn [shr_m loc_of_shr_record round_nearest_even].
  rewrite Hshift. cbn [shr shr_record_of_loc shr_m].
  replace (e <=? emax - prec) with true
    by (symmetry; apply Z.leb_le; unfold emax, prec; lia).
  reflexivity.
Qed.

(** The float64 of a non-zero integer of at most 53 bits carries the
    integer exactly. *)
Lemma binary_round_small (s : bool) (m : positive) :
  Z.pos m < 2 ^ 53 ->
  exists mz ez,
    binary_round prec emax s m 0 = S754_finite s mz ez
    /\ ez <= 0 /\ Z.pos mz = Z.pos m * 2 ^ (- ez).
Proof.
  intros Hm. pose proof (digits2_pos_le_53 m Hm) as Hd.
  unfold binary_round, shl_align.
  assert (Hfexp : fexp prec emax (Z.pos (digits2_pos m) + 0)
                  = Z.pos (digits2_pos m) - 53).
  { unfold fexp, emin, prec, emax. lia. }
  rewrite Hfexp, Z.sub_0_r.
  destruct (Z.pos (digits2_pos m) - 53) as [| p | p] eqn:Hdiff; try lia.
  - exists m, 0. split; [| split; [lia | cbn; lia]].
    apply binary_round_aux_exact; lia.
  - exists (Pos.iter xO m p), (Z.neg p). split; [| split; [lia |]].
    + apply binary_round_aux_exact; [| lia].
      rewrite iter_xO_digits. lia.
    + rewrite iter_xO_value. reflexivity.
Qed.

Lemma float64_of_Z_small (n : Z) :
  n <> 0 -> Z.abs n < 2 ^ 53 ->
  exists mz ez,
    float64_of_Z n = S754_finite (n <? 0) mz ez
    /\ ez <= 0 /\ Z.pos mz = Z.abs n * 2 ^ (- ez).
Proof.
  intros Hn Hb. unfold float64_of_Z, binary_normalize.
  destruct n as [| m | m]; [contradiction | |]; apply binary_round_small; exact Hb.
Qed.

(** An integer of magnitude at most [2^53] is a float64. *)
Lemma float64_of_Z_exact (n : Z) :
  Z.abs n <= 2 ^ 53 -> float64_is_Z (float64_of_Z n) n.
Proof.
  intros Hb.
  destruct (Z.eq_dec n 0) as [-> | Hn]; [split; reflexivity |].
  destruct (Z.eq_dec (Z.abs n) (2 ^ 53)) as [Hmax | Hlt].
  - assert (Hcases : n = 2 ^ 53 \/ n = - 2 ^ 53) by lia.
    destruct Hcases as [-> | ->]; split; vm_compute; reflexivity.
  - destruct (float64_of_Z_small n Hn) as (mz & ez & -> & Hez & Hmz); [lia |].
    split; [reflexivity |]. cbn.
    rewrite (Z.max_r ez 0), (Z.max_l (- ez) 0), Z.mul_1_r by lia.
    rewrite Hmz. destruct (Z.ltb_spec n 0); cbn [cond_Zopp]; lia.
Qed.

(** The round trip of an integer through float64 and back to int64. *)
Lemma int64_of_float64_of_Z (n : Z) :
  Z.abs n <= 2 ^ 53 -> int64_of_float64 (float64_of_Z n) = n.
Proof.
  intros Hb. apply int64_of_float64_is_Z; [now apply float64_of_Z_exact |].
  assert (2 ^ 53 < 2 ^ 63) by (apply Z.pow_lt_mono_r; lia).
  unfold fits_int64, min_int64, max_int64.
  apply andb_true_iff; split; apply Z.leb_le; lia.
Qed.

End Float64Integers.

(** ** What extraction accepts and what it reports *)

Section ExtractionCases.
Context `{Platform}.

Lemma assert_float64_inv (claims : gmap string any) (k : string) (f : float64) :
  assert_float64 (map_index claims k) = (f, true) ->
  claims !! k = Some (AnyFloat64 f).
Proof.
  unfold map_index. destruct (claims !! k) as [v |]; cbn; [| discriminate].
  destruct v; cbn; try discriminate. now intros [= ->].
Qed.

Lemma assert_string_inv (claims : gmap string any) (k : string) (s : string) :
  assert_string (map_index claims k) = (s, true) ->
  claims !! k = Some (AnyString s).
Proof.
  unfold map_index. destruct (claims !! k) as [v |]; cbn; [| discriminate].
  destruct v; cbn; try discriminate. now intros [= ->].
Qed.

Lemma assert_float64_fails (claims : gmap string any) (k : string) (f : float64) :
  assert_float64 (map_index claims k) = (f, false) -> not_float64_at claims k.
Proof.
  unfold map_index, not_float64_at.
  destruct (claims !! k) as [v |]; cbn; [| now left].
  intros Hv. right. exists v. split; [reflexivity |].
  intros f' ->. discriminate.
Qed.

Lemma assert_string_fails (claims : gmap string any) (k : string) (s : string) :
  assert_string (map_index claims k) = (s, false) -> not_string_at claims k.
Proof.
  unfold map_index, not_string_at.
  destruct (claims !! k) as [v |]; cbn; [| now left].
  intros Hv. right. exists v. split; [reflexivity |].
  intros s' ->. discriminate.
Qed.

Lemma deploymentId_read (claims : gmap string any) :
  (assert_string (map_index claims deploymentID)).1
  = match claims !! deploymentID with
    | Some (AnyString depUUID) => depUUID
    | _ => ""
    end.
Proof.
  unfold map_index. destruct (claims !! deploymentID) as [v |]; [| reflexivity].
  now destruct v.
Qed.

(** What a successful extraction says about the token. *)
Lemma toLicenseInfo_success_inv (token : jwt_Token) (info : LicenseInfo) :
  toLicenseInfo token = (info, None) ->
  exists claims accID storageCap orgName planName,
    AsMap token = Ok claims
    /\ claims !! accountID = Some (AnyFloat64 accID)
    /\ float64_lt accID float64_zero = false
    /\ claims !! organization = Some (AnyString orgName)
    /\ claims !! capacity = Some (AnyFloat64 storageCap)
    /\ claims !! plan = Some (AnyString planName)
    /\ info = {| Email := Subject token;
                 Organization := orgName;
                 AccountID := int64_of_float64 accID;
                 DeploymentID :=
                   match claims !! deploymentID with
                   | Some (AnyString depUUID) => depUUID
                   | _ => ""
                   end;
                 StorageCapacity := int64_of_float64 storageCap;
                 Plan := planName;
                 ExpiresAt := Expiration token |}.
Proof.
  unfold toLicenseInfo.
  destruct (AsMap token) as [claims | e] eqn:Hmap; [| discriminate].
  destruct (assert_float64 (map_index claims accountID)) as [accID [|]] eqn:Haid;
    cbn; [| discriminate].
  destruct (float64_lt accID float64_zero) eqn:Hneg; [discriminate |].
  pose proof (deploymentId_read claims) as Hdid.
  destruct (assert_string (map_index claims deploymentID)) as [depUUID okd].
  destruct (assert_string (map_index claims organization)) as [orgName [|]] eqn:Horg;
    cbn; [| discriminate].
  destruct (assert_float64 (map_index claims capacity)) as [storageCap [|]] eqn:Hcap;
    cbn; [| discriminate].
  destruct (assert_string (map_index claims plan)) as [planName [|]] eqn:Hplan;
    cbn; [| discriminate].
  intros [= <-]. exists claims, accID, storageCap, orgName, planName.
  cbn in Hdid. rewrite <- Hdid.
  repeat split; auto using assert_float64_inv, assert_string_inv.
Qed.

(** X1. Extraction succeeds exactly when the claim set is available, the
    account id is a number that is not below zero, the capacity is a
    number and the organization and the plan are strings. The result then
    carries those claims, the deployment id when it is a string and the
    empty string otherwise, the subject and the expiration of the
    token. *)
Theorem toLicenseInfo_success_iff (token : jwt_Token) (info : LicenseInfo) :
  toLicenseInfo token = (info, None) <->
  exists claims accID storageCap orgName planName,
    AsMap token = Ok claims
    /\ claims !! accountID = Some (AnyFloat64 accID)
    /\ float64_lt accID float64_zero = false
    /\ claims !! organization = Some (AnyString orgName)
    /\ claims !! capacity = Some (AnyFloat64 storageCap)
    /\ claims !! plan = Some (AnyString planName)
    /\ info = {| Email := Subject token;
                 Organization := orgName;
                 AccountID := int64_of_float64 accID;
                 DeploymentID :=
                   match claims !! deploymentID with
                   | Some (AnyString depUUID) => depUUID
                   | _ => ""
                   end;
                 StorageCapacity := int64_of_float64 storageCap;
                 Plan := planName;
                 ExpiresAt := Expiration token |}.
Proof.
  split.
  - apply toLicenseInfo_success_inv.
  - intros (claims & accID & storageCap & orgName & planName
            & Hmap & Haid & Hneg & Horg & Hcap & Hplan & ->).
    rewrite (toLicenseInfo_ok token claims accID storageCap orgName planName
               Hmap Haid Hneg Horg Hcap Hplan).
    now rewrite deploymentId_read.
Qed.

(** X2. An error of extraction is the error of [AsMap] as it is, or else
    names the first claim, in the order account id, organization,
    capacity, plan, that is absent, has the wrong type or, for the
    account id, is below zero; the [LicenseInfo] next to it is the zero
    value. *)
Theorem toLicenseInfo_error_cases (token : jwt_Token) (info : LicenseInfo) (e : error) :
  toLicenseInfo token = (info, Some e) ->
  info = LicenseInfo_zero
  /\ (AsMap token = Err e
      \/ exists claims,
           AsMap token = Ok claims
           /\ (((not_float64_at claims accountID
                 \/ exists f, claims !! accountID = Some (AnyFloat64 f)
                              /\ float64_lt f float64_zero = true)
                /\ e = "Invalid accountId in claims")
               \/ exists accID,
                    claims !! accountID = Some (AnyFloat64 accID)
                    /\ float64_lt accID float64_zero = false
                    /\ ((not_string_at claims organization
                         /\ e = "Invalid organization in claims")
                        \/ exists orgName,
                             claims !! organization = Some (AnyString orgName)
                             /\ ((not_float64_at claims capacity
                                  /\ e = "Invalid storage capacity in claims")
                                 \/ exists storageCap,
                                      claims !! capacity = Some (AnyFloat64 storageCap)
                                      /\ not_string_at claims plan
                                      /\ e = "Invalid plan in claims")))).
Proof.
  intros Hres. split; [exact (toLicenseInfo_error_zero token info e Hres) |].
  revert Hres. unfold toLicenseInfo.
  destruct (AsMap token) as [claims | e0] eqn:Hmap; [| intros [= _ <-]; now left].
  intros Hres. right. exists claims. split; [reflexivity |]. revert Hres.
  destruct (assert_float64 (map_index claims accountID)) as [accID [|]] eqn:Haid; cbn.
  2: { intros [= _ <-]. left. split; [| reflexivity]. left.
       eapply assert_float64_fails; eauto. }
  apply assert_float64_inv in Haid.
  destruct (float64_lt accID float64_zero) eqn:Hneg.
  { intros [= _ <-]. left. split; [| reflexivity]. right. now exists accID. }
  intros Hres. right. exists accID. split; [exact Haid |]. split; [exact Hneg |].
  revert Hres.
  destruct (assert_string (map_index claims deploymentID)) as [depUUID okd].
  destruct (assert_string (map_index claims organization)) as [orgName [|]] eqn:Horg; cbn.
  2: { intros [= _ <-]. left. split; [| reflexivity].
       eapply assert_string_fails; eauto. }
  apply assert_string_inv in Horg.
  intros Hres. right. exists orgName. split; [exact Horg |]. revert Hres.
  destruct (assert_float64 (map_index claims capacity)) as [storageCap [|]] eqn:Hcap; cbn.
  2: { intros [= _ <-]. left. split; [| reflexivity].
       eapply assert_float64_fails; eauto. }
  apply assert_float64_inv in Hcap.
  intros Hres. right. exists storageCap. split; [exact Hcap |]. revert Hres.
  destruct (assert_string (map_index claims plan)) as [planName [|]] eqn:Hplan; cbn.
  { discriminate. }
  intros [= _ <-]. split; [| reflexivity]. eapply assert_string_fails; eauto.
Qed.

End ExtractionCases.

Section ExtractionValues.
Context `{Platform}.

(** X3. The result of extraction is decided by the five license claims,
    the subject and the expiration of the token: two tokens that agree
    on those give the same result, whatever other claims their claim
    sets hold, so unknown claims are neither rejected nor looked at. *)
Theorem toLicenseInfo_other_claims (token token' : jwt_Token)
    (claims claims' : gmap string any) :
  AsMap token = Ok claims ->
  AsMap token' = Ok claims' ->
  Subject token = Subject token' ->
  Expiration token = Expiration token' ->
  claims !! accountID = claims' !! accountID ->
  claims !! deploymentID = claims' !! deploymentID ->
  claims !! organization = claims' !! organization ->
  claims !! capacity = claims' !! capacity ->
  claims !! plan = claims' !! plan ->
  toLicenseInfo token = toLicenseInfo token'.
Proof.
  intros Hmap Hmap' Hsub Hexp Ha Hd Ho Hc Hp.
  unfold toLicenseInfo, map_index.
  now rewrite Hmap, Hmap', Hsub, Hexp, Ha, Hd, Ho, Hc, Hp.
Qed.

Lemma float64_nonneg_num (f : float64) :
  is_finite f = true -> float64_lt f float64_zero = false -> 0 <= float64_num f.
Proof.
  destruct f as [s | s | | s m e]; cbn; try discriminate; try lia.
  intros _. destruct s; [discriminate |]. intros _. cbn. lia.
Qed.

Lemma float64_den_pos (f : float64) : 0 < float64_den f.
Proof. destruct f; cbn; lia. Qed.

(** X4. The account id that extraction returns for a finite [aid] below
    [2^63] is the integer part of [aid]: it is not negative, it is at
    most [aid], and [aid] is less than the next integer. *)
Theorem toLicenseInfo_accountId_floor (token : jwt_Token) (claims : gmap string any)
    (accID : float64) (info : LicenseInfo) :
  toLicenseInfo token = (info, None) ->
  AsMap token = Ok claims ->
  claims !! accountID = Some (AnyFloat64 accID) ->
  is_finite accID = true ->
  float64_num accID < 2 ^ 63 * float64_den accID ->
  0 <= AccountID info < 2 ^ 63
  /\ AccountID info * float64_den accID <= float64_num accID
     < (AccountID info + 1) * float64_den accID.
Proof.
  intros Hres Hmap Haid Hfin Hlt.
  apply toLicenseInfo_success_inv in Hres
    as (claims' & accID' & storageCap & orgName & planName
        & Hmap' & Haid' & Hneg & _ & _ & _ & ->).
  rewrite Hmap in Hmap'. injection Hmap' as <-.
  rewrite Haid in Haid'. injection Haid' as <-. cbn [AccountID].
  pose proof (float64_nonneg_num accID Hfin Hneg) as Hnum.
  pose proof (float64_den_pos accID) as Hden.
  assert (Hq : truncate accID = float64_num accID / float64_den accID)
    by (unfold truncate; apply Z.quot_div_nonneg; lia).
  assert (Hq0 : 0 <= float64_num accID / float64_den accID)
    by (apply Z.div_pos; lia).
  assert (Hq1 : float64_num accID / float64_den accID < 2 ^ 63)
    by (apply Z.div_lt_upper_bound; lia).
  rewrite int64_of_float64_truncate; [| exact Hfin |].
  - rewrite Hq. split; [lia |]. split.
    + rewrite Z.mul_comm. apply Z.mul_div_le; lia.
    + rewrite Z.mul_comm. apply Z.mul_succ_div_gt; lia.
  - rewrite Hq. unfold fits_int64, min_int64, max_int64.
    apply andb_true_iff; split; apply Z.leb_le; lia.
Qed.

(** X5. The check of the account id bounds it from below only. An [aid]
    that is not below zero and is [2^63] or more, or is not finite,
    passes: extraction succeeds and the account id it returns is whatever
    the conversion to int64 gives for an unrepresentable value. *)
Theorem toLicenseInfo_accountId_unrepresentable (token : jwt_Token)
    (claims : gmap string any) (accID storageCap : float64)
    (orgName planName : string) :
  AsMap token = Ok claims ->
  claims !! accountID = Some (AnyFloat64 accID) ->
  float64_lt accID float64_zero = false ->
  is_finite accID = false \/ 2 ^ 63 * float64_den accID <= float64_num accID ->
  claims !! organization = Some (AnyString orgName) ->
  claims !! capacity = Some (AnyFloat64 storageCap) ->
  claims !! plan = Some (AnyString planName) ->
  exists info,
    toLicenseInfo token = (info, None)
    /\ AccountID info = int64_unrepresentable accID.
Proof.
  intros Hmap Haid Hneg Hbig Horg Hcap Hplan. eexists. split.
  - exact (toLicenseInfo_ok token claims accID storageCap orgName planName
             Hmap Haid Hneg Horg Hcap Hplan).
  - cbn [AccountID]. unfold int64_of_float64.
    destruct (is_finite accID) eqn:Hfin.
    + destruct Hbig as [Hbig | Hbig]; [discriminate |].
      rewrite (float64_integral_truncate accID Hfin).
      pose proof (float64_den_pos accID) as Hden.
      assert (Hq : truncate accID = float64_num accID / float64_den accID)
        by (unfold truncate; apply Z.quot_div_nonneg; nia).
      assert (Hge : 2 ^ 63 <= float64_num accID / float64_den accID)
        by (apply Z.div_le_lower_bound; lia).
      replace (fits_int64 (truncate accID)) with false; [reflexivity |].
      symmetry. unfold fits_int64, min_int64, max_int64.
      apply andb_false_iff. right. apply Z.leb_gt. lia.
    + now destruct accID.
Qed.

(** X6. Integers survive the passage through float64: when [aid] is the
    float64 of an integer between 0 and [2^53] and [cap] the float64 of
    an integer of magnitude at most [2^53], extraction returns exactly
    those integers as account id and storage capacity. *)
Theorem toLicenseInfo_integers (token : jwt_Token) (claims : gmap string any)
    (aid cap : Z) (orgName planName : string) :
  AsMap token = Ok claims ->
  claims !! accountID = Some (AnyFloat64 (float64_of_Z aid)) ->
  0 <= aid <= 2 ^ 53 ->
  claims !! capacity = Some (AnyFloat64 (float64_of_Z cap)) ->
  Z.abs cap <= 2 ^ 53 ->
  claims !! organization = Some (AnyString orgName) ->
  claims !! plan = Some (AnyString planName) ->
  exists info,
    toLicenseInfo token = (info, None)
    /\ AccountID info = aid /\ StorageCapacity info = cap.
Proof.
  intros Hmap Haid Ha Hcap Hc Horg Hplan.
  assert (Hneg : float64_lt (float64_of_Z aid) float64_zero = false).
  { apply (float64_is_Z_nonneg _ aid); [apply float64_of_Z_exact |]; lia. }
  eexists. split.
  - exact (toLicenseInfo_ok token claims _ _ orgName planName
             Hmap Haid Hneg Horg Hcap Hplan).
  - cbn. split; apply int64_of_float64_of_Z; lia.
Qed.

End ExtractionValues.

(** The legacy license satisfies the conditions of success. *)
Lemma toLicenseInfo_success_iff_witness :
  @toLicenseInfo Sample.platform Sample.legacy_token
  = ({| Email := "ops@acme.example"; Organization := "Acme"; AccountID := 42;
        DeploymentID := ""; StorageCapacity := 100; Plan := "enterprise";
        ExpiresAt := Sample.now + 86400 |}, None).
Proof.
  apply (proj2 (@toLicenseInfo_success_iff Sample.platform Sample.legacy_token _)).
  exists Sample.legacy_claims, (float64_of_Z 42), (float64_of_Z 100),
    "Acme", "enterprise".
  repeat split; vm_compute; reflexivity.
Defined.

(** A license without organization: the error names the organization,
    the account id being in order. *)
Lemma toLicenseInfo_error_cases_witness :
  exists accID,
    Sample.acme_claims !! accountID = Some (AnyFloat64 accID)
    /\ float64_lt accID float64_zero = false
    /\ not_string_at (delete "org" Sample.acme_claims) organization.
Proof.
  assert (Hres : @toLicenseInfo Sample.platform
                   (Sample.token_of (delete "org" Sample.acme_claims) Sample.now)
                 = (LicenseInfo_zero, Some "Invalid organization in claims"))
    by (vm_compute; reflexivity).
  pose proof (@toLicenseInfo_error_cases Sample.platform _ _ _ Hres) as W.
  destruct W as (_ & [Hmap | (claims & Hmap & Hcases)]); [discriminate Hmap |].
  injection Hmap as <-.
  destruct Hcases as [(_ & Habs) | (accID & Haid & Hneg & Hrest)];
    [discriminate Habs |].
  exists accID. split; [| split; [exact Hneg |]].
  - rewrite lookup_delete_ne in Haid by discriminate. exact Haid.
  - destruct Hrest as [(Horg & _) | (orgName & _ & [(_ & Habs) | (c & _ & _ & Habs)])];
      [exact Horg | discriminate Habs | discriminate Habs].
Defined.

(** The Acme token and the same token with an issuer and a key
    identifier among its claims give the same result. *)
Lemma toLicenseInfo_other_claims_witness :
  @toLicenseInfo Sample.platform
    (Sample.token_of
       (<[ "iss" := AnyString "subnet" ]>
          (<[ "kid" := AnyFloat64 (float64_of_Z 7) ]> Sample.acme_claims))
       (Sample.now + 86400))
  = @toLicenseInfo Sample.platform Sample.acme_token.
Proof.
  pose proof (@toLicenseInfo_other_claims Sample.platform
                (Sample.token_of
                   (<[ "iss" := AnyString "subnet" ]>
                      (<[ "kid" := AnyFloat64 (float64_of_Z 7) ]> Sample.acme_claims))
                   (Sample.now + 86400))
                Sample.acme_token
                (<[ "iss" := AnyString "subnet" ]>
                   (<[ "kid" := AnyFloat64 (float64_of_Z 7) ]> Sample.acme_claims))
                Sample.acme_claims) as W.
  apply W.
  - reflexivity.
  - reflexivity.
  - reflexivity.
  - reflexivity.
  - vm_compute; reflexivity.
  - vm_compute; reflexivity.
  - vm_compute; reflexivity.
  - vm_compute; reflexivity.
  - vm_compute; reflexivity.
Defined.

(** For the account id 42.9: 42 is at most 42.9, which is less than 43. *)
Lemma toLicenseInfo_accountId_floor_witness :
  42 * float64_den (float64_of_ratio 429 10)
  <= float64_num (float64_of_ratio 429 10)
  < (42 + 1) * float64_den (float64_of_ratio 429 10).
Proof.
  pose proof (@toLicenseInfo_accountId_floor Sample.platform
                Sample.fractional_token
                (<[ "aid" := AnyFloat64 (float64_of_ratio 429 10) ]>
                   (<[ "cap" := AnyFloat64 (float64_of_ratio (-7) 2) ]>
                      Sample.acme_claims))
                (float64_of_ratio 429 10)
                {| Email := "ops@acme.example"; Organization := "Acme";
                   AccountID := 42; DeploymentID := "dep-123";
                   StorageCapacity := -3; Plan := "enterprise";
                   ExpiresAt := Sample.now + 86400 |}) as W.
  cbn [AccountID] in W.
  apply W; vm_compute; reflexivity.
Defined.

(** The account id 10^19 passes and becomes the least int64 where the
    conversion of an unrepresentable value gives that. *)
Lemma toLicenseInfo_accountId_unrepresentable_witness :
  exists info,
    @toLicenseInfo Sample.platform
      (Sample.token_of
         (<[ "aid" := AnyFloat64 (float64_of_Z (10 ^ 19)) ]> Sample.acme_claims)
         Sample.now)
    = (info, None)
    /\ AccountID info = - 2 ^ 63.
Proof.
  destruct (@toLicenseInfo_accountId_unrepresentable Sample.platform
              (Sample.token_of
                 (<[ "aid" := AnyFloat64 (float64_of_Z (10 ^ 19)) ]> Sample.acme_claims)
                 Sample.now)
              (<[ "aid" := AnyFloat64 (float64_of_Z (10 ^ 19)) ]> Sample.acme_claims)
              (float64_of_Z (10 ^ 19)) (float64_of_Z 100) "Acme" "enterprise"
              eq_refl)
    as (info & Hres & Haid).
  - vm_compute; reflexivity.
  - vm_compute; reflexivity.
  - right. vm_compute; discriminate.
  - vm_compute; reflexivity.
  - vm_compute; reflexivity.
  - vm_compute; reflexivity.
  - exists info. split; [exact Hres |]. rewrite Haid. reflexivity.
Defined.

(** The account id [2^53] and the capacity [-2^53] come out exactly. *)
Lemma toLicenseInfo_integers_witness :
  exists info,
    @toLicenseInfo Sample.platform
      (Sample.token_of
         (Sample.claims_of (AnyFloat64 (float64_of_Z (2 ^ 53)))
            (AnyFloat64 (float64_of_Z (- 2 ^ 53)))
            AnyNil (AnyString "Acme") (AnyString "enterprise"))
         Sample.now)
    = (info, None)
    /\ AccountID info = 2 ^ 53 /\ StorageCapacity info = - 2 ^ 53.
Proof.
  apply (@toLicenseInfo_integers Sample.platform
           (Sample.token_of
              (Sample.claims_of (AnyFloat64 (float64_of_Z (2 ^ 53)))
                 (AnyFloat64 (float64_of_Z (- 2 ^ 53)))
                 AnyNil (AnyString "Acme") (AnyString "enterprise"))
              Sample.now)
           (Sample.claims_of (AnyFloat64 (float64_of_Z (2 ^ 53)))
              (AnyFloat64 (float64_of_Z (- 2 ^ 53)))
              AnyNil (AnyString "Acme") (AnyString "enterprise"))
           (2 ^ 53) (- 2 ^ 53) "Acme" "enterprise" eq_refl).
  - vm_compute; reflexivity.
  - lia.
  - vm_compute; reflexivity.
  - lia.
  - vm_compute; reflexivity.
  - vm_compute; reflexivity.
Defined.

(** ** What the key loader and the constructor return *)

Section ConstructionCases.
Context `{encoding_pem, crypto_x509, jwx_jwk}.

(** X7. The key loader returns a key only when the blob holds a PEM block
    whose bytes parse as a PKIX public key that is an ECDSA key, or do
    not parse as a PKIX public key but parse as a certificate whose
    public key is an ECDSA key; the key returned is that key. *)
Theorem parseECPublicKeyFromPEM_success_iff (key : string) (pkey : ecdsa_PublicKey) :
  parseECPublicKeyFromPEM key = Ok pkey <->
  exists block,
    (pem_Decode key).1 = Some block
    /\ (x509_ParsePKIXPublicKey (pem_Bytes block) = Ok (KeyECDSA pkey)
        \/ ((exists e, x509_ParsePKIXPublicKey (pem_Bytes block) = Err e)
            /\ exists cert,
                 x509_ParseCertificate (pem_Bytes block) = Ok cert
                 /\ cert_PublicKey cert = KeyECDSA pkey)).
Proof.
  unfold parseECPublicKeyFromPEM. split.
  - destruct (pem_Decode key).1 as [block |]; [| discriminate].
    intros Hres. exists block. split; [reflexivity |]. revert Hres.
    destruct (x509_ParsePKIXPublicKey (pem_Bytes block)) as [parsedKey | e].
    + destruct parsedKey; cbn; try discriminate. intros [= ->]. now left.
    + destruct (x509_ParseCertificate (pem_Bytes block)) as [cert | e'];
        [| discriminate].
      destruct (cert_PublicKey cert) eqn:Hpk; cbn; try discriminate.
      intros [= ->]. right. split; [now exists e |]. now exists cert.
  - intros (block & -> & [-> | ((e & ->) & cert & -> & ->)]); reflexivity.
Qed.

(** X8. The constructor fails with the error of the key loader behind the
    text "Failed to parse public key: ", so a blob without PEM framing is
    refused with that text and the key-format error; it fails with the
    error of [jwk.New] as it is; otherwise it succeeds. *)
Theorem NewLicenseVerifier_cases (pemBytes : string) :
  (forall e,
     parseECPublicKeyFromPEM pemBytes = Err e ->
     NewLicenseVerifier pemBytes = Err ("Failed to parse public key: " +:+ e))
  /\ ((pem_Decode pemBytes).1 = None ->
      NewLicenseVerifier pemBytes
      = Err "Failed to parse public key: key must be a PEM encoded PKCS1 or PKCS8 key")
  /\ (forall pbKey e,
        parseECPublicKeyFromPEM pemBytes = Ok pbKey ->
        jwk_New pbKey = Err e ->
        NewLicenseVerifier pemBytes = Err e)
  /\ (forall pbKey key,
        parseECPublicKeyFromPEM pemBytes = Ok pbKey ->
        jwk_New pbKey = Ok key ->
        exists lv, NewLicenseVerifier pemBytes = Ok lv).
Proof.
  unfold NewLicenseVerifier. split; [| split; [| split]].
  - now intros e ->.
  - intros Hnone. unfold parseECPublicKeyFromPEM. now rewrite Hnone.
  - now intros pbKey e -> ->.
  - intros pbKey key -> ->. now eexists.
Qed.

End ConstructionCases.

(** A certificate gives its key. *)
Lemma parseECPublicKeyFromPEM_success_iff_witness :
  exists block,
    (@pem_Decode Sample.pem Sample.certificate).1 = Some block
    /\ (@x509_ParsePKIXPublicKey Sample.x509 (pem_Bytes block)
        = Ok (KeyECDSA Sample.issuer_key)
        \/ ((exists e, @x509_ParsePKIXPublicKey Sample.x509 (pem_Bytes block) = Err e)
            /\ exists cert,
                 @x509_ParseCertificate Sample.x509 (pem_Bytes block) = Ok cert
                 /\ cert_PublicKey cert = KeyECDSA Sample.issuer_key)).
Proof.
  apply (proj1 (@parseECPublicKeyFromPEM_success_iff Sample.pem Sample.x509
                  Sample.certificate Sample.issuer_key)).
  vm_compute; reflexivity.
Defined.

(** The blob "not-a-key" is refused by the constructor. *)
Lemma NewLicenseVerifier_cases_witness :
  @NewLicenseVerifier Sample.pem Sample.x509 Sample.jwk "not-a-key"
  = Err "Failed to parse public key: key must be a PEM encoded PKCS1 or PKCS8 key".
Proof.
  apply (proj1 (proj2 (@NewLicenseVerifier_cases Sample.pem Sample.x509 Sample.jwk
                         "not-a-key"))).
  reflexivity.
Defined.

(** ** What the deployment matcher returns *)

Section ClusterLicenseCases.
Context `{Platform, encoding_pem, crypto_x509, jwx_jwk, jwx_jwt, pkg_env}.

Lemma VerifyClusterLicense_verified (lic depID : string)
    (options : list jwt_ParseOption) (lv : LicenseVerifier) (token : jwt_Token)
    (info : LicenseInfo) :
  NewLicenseVerifier clusterPublicKey = Ok lv ->
  jwt_ParseString lic (parse_options lv options) = Ok token ->
  toLicenseInfo token = (info, None) ->
  VerifyClusterLicense lic depID options
  = if String.eqb (DeploymentID info) depID then None
    else Some "Invalid license - deployment ID doesn't match".
Proof.
  intros Hnew Hparse Hinfo. unfold VerifyClusterLicense.
  fold clusterPublicKey. rewrite Hnew, (Verify_parsed _ _ _ _ Hparse). cbn [fst].
  rewrite Hinfo. now destruct (String.eqb (DeploymentID info) depID).
Qed.

(** X9. [VerifyClusterLicense] returns no error only when the verifier
    was constructed from the embedded key, the parser accepted the
    license for that verifier, extraction succeeded, and the deployment
    id extracted is the expected one; and in that case it does. *)
Theorem VerifyClusterLicense_nil_iff (lic depID : string)
    (options : list jwt_ParseOption) :
  VerifyClusterLicense lic depID options = None <->
  exists lv token info,
    NewLicenseVerifier clusterPublicKey = Ok lv
    /\ jwt_ParseString lic (parse_options lv options) = Ok token
    /\ toLicenseInfo token = (info, None)
    /\ DeploymentID info = depID.
Proof.
  split.
  - unfold VerifyClusterLicense. fold clusterPublicKey.
    destruct (NewLicenseVerifier clusterPublicKey) as [lv | e]; [| discriminate].
    destruct (jwt_ParseString lic (parse_options lv options)) as [token | e] eqn:Hparse.
    + rewrite (Verify_parsed _ _ _ _ Hparse). cbn [fst].
      destruct (toLicenseInfo token) as [info [e |]] eqn:Hinfo; [discriminate |].
      destruct (String.eqb_spec (DeploymentID info) depID) as [Heq | Hne];
        [| discriminate].
      intros _. now exists lv, token, info.
    + rewrite (Verify_rejected _ _ _ _ Hparse). discriminate.
  - intros (lv & token & info & Hnew & Hparse & Hinfo & <-).
    rewrite (VerifyClusterLicense_verified _ _ _ _ _ _ Hnew Hparse Hinfo).
    now rewrite String.eqb_refl.
Qed.

(** X10. A license whose deployment-id claim is absent or is not a string
    binds to no deployment: when it verifies and its other claims are in
    order, [VerifyClusterLicense] accepts it for the empty expected id
    and refuses it with the mismatch error for every other expected
    id. *)
Theorem VerifyClusterLicense_no_deploymentId (lic depID : string)
    (options : list jwt_ParseOption) (lv : LicenseVerifier) (token : jwt_Token)
    (claims : gmap string any) (accID storageCap : float64)
    (orgName planName : string) :
  NewLicenseVerifier clusterPublicKey = Ok lv ->
  jwt_ParseString lic (parse_options lv options) = Ok token ->
  AsMap token = Ok claims ->
  not_string_at claims deploymentID ->
  claims !! accountID = Some (AnyFloat64 accID) ->
  float64_lt accID float64_zero = false ->
  claims !! organization = Some (AnyString orgName) ->
  claims !! capacity = Some (AnyFloat64 storageCap) ->
  claims !! plan = Some (AnyString planName) ->
  (depID = "" -> VerifyClusterLicense lic depID options = None)
  /\ (depID <> "" ->
      VerifyClusterLicense lic depID options
      = Some "Invalid license - deployment ID doesn't match").
Proof.
  intros Hnew Hparse Hmap Hdid Haid Hneg Horg Hcap Hplan.
  pose proof (toLicenseInfo_ok token claims accID storageCap orgName planName
                Hmap Haid Hneg Horg Hcap Hplan) as Hinfo.
  rewrite (assert_string_not_at _ _ Hdid) in Hinfo. cbn [fst] in Hinfo.
  rewrite (VerifyClusterLicense_verified _ depID _ _ _ _ Hnew Hparse Hinfo).
  cbn [DeploymentID]. split.
  - now intros ->.
  - intros Hne. destruct (String.eqb_spec "" depID) as [Heq | _]; [| reflexivity].
    now destruct Hne.
Qed.

(** X11. Every error of [VerifyClusterLicense] is one of these: the error
    of the key loader behind "Failed to parse public key: "; the error of
    [jwk.New]; the error of the parser behind "failed to verify license:
    "; the error of extraction; or the mismatch error, returned when
    extraction succeeded with a deployment id other than the expected
    one. *)
Theorem VerifyClusterLicense_error_cases (lic depID : string)
    (options : list jwt_ParseOption) (e : error) :
  VerifyClusterLicense lic depID options = Some e ->
  (exists e0,
     parseECPublicKeyFromPEM clusterPublicKey = Err e0
     /\ e = "Failed to parse public key: " +:+ e0)
  \/ (exists pbKey,
        parseECPublicKeyFromPEM clusterPublicKey = Ok pbKey
        /\ jwk_New pbKey = Err e)
  \/ (exists lv,
        NewLicenseVerifier clusterPublicKey = Ok lv
        /\ ((exists e0,
               jwt_ParseString lic (parse_options lv options) = Err e0
               /\ e = "failed to verify license: " +:+ e0)
            \/ (exists token,
                  jwt_ParseString lic (parse_options lv options) = Ok token
                  /\ toLicenseInfo token = (LicenseInfo_zero, Some e))
            \/ (exists token info,
                  jwt_ParseString lic (parse_options lv options) = Ok token
                  /\ toLicenseInfo token = (info, None)
                  /\ DeploymentID info <> depID
                  /\ e = "Invalid license - deployment ID doesn't match"))).
Proof.
  unfold VerifyClusterLicense. fold clusterPublicKey.
  destruct (NewLicenseVerifier clusterPublicKey) as [lv | e1] eqn:Hnew.
  - intros Hres. right. right. exists lv. split; [reflexivity |]. revert Hres.
    destruct (jwt_ParseString lic (parse_options lv options)) as [token | e0] eqn:Hparse.
    + rewrite (Verify_parsed _ _ _ _ Hparse). cbn [fst].
      destruct (toLicenseInfo token) as [info [e2 |]] eqn:Hinfo.
      * intros [= <-]. right. left. exists token. split; [reflexivity |].
        now rewrite (toLicenseInfo_error_zero token info e2 Hinfo) in Hinfo.
      * destruct (String.eqb_spec (DeploymentID info) depID) as [Heq | Hne];
          cbn; [discriminate |].
        intros [= <-]. right. right. now exists token, info.
    + rewrite (Verify_rejected _ _ _ _ Hparse). cbn [fst].
      intros [= <-]. left. now exists e0.
  - intros [= <-]. revert Hnew. unfold NewLicenseVerifier.
    destruct (parseECPublicKeyFromPEM clusterPublicKey) as [pbKey | e0].
    + destruct (jwk_New pbKey) as [key | e2] eqn:Hjwk; [discriminate |].
      intros [= <-]. right. left. now exists pbKey.
    + intros [= <-]. left. now exists e0.
Qed.

End ClusterLicenseCases.


(** The Acme license is accepted for its own deployment. *)
Lemma VerifyClusterLicense_nil_iff_witness :
  @VerifyClusterLicense Sample.platform Sample.pem Sample.x509 Sample.jwk
    Sample.jwt Sample.env "acme" "dep-123" []
  = None.
Proof.
  apply (proj2 (@VerifyClusterLicense_nil_iff Sample.platform Sample.pem
                  Sample.x509 Sample.jwk Sample.jwt Sample.env
                  "acme" "dep-123" [])).
  exists Sample.verifier, Sample.acme_token,
    {| Email := "ops@acme.example"; Organization := "Acme"; AccountID := 42;
       DeploymentID := "dep-123"; StorageCapacity := 100; Plan := "enterprise";
       ExpiresAt := Sample.now + 86400 |}.
  repeat split; vm_compute; reflexivity.
Defined.

(** The legacy license is accepted for the empty deployment id and
    refused for dep-123. *)
Lemma VerifyClusterLicense_no_deploymentId_witness :
  @VerifyClusterLicense Sample.platform Sample.pem Sample.x509 Sample.jwk
    Sample.jwt Sample.env "legacy" "" []
  = None
  /\ @VerifyClusterLicense Sample.platform Sample.pem Sample.x509 Sample.jwk
       Sample.jwt Sample.env "legacy" "dep-123" []
     = Some "Invalid license - deployment ID doesn't match".
Proof.
  assert (Hnew : @NewLicenseVerifier Sample.pem Sample.x509 Sample.jwk
                   (@clusterPublicKey Sample.env)
                 = Ok Sample.verifier) by (vm_compute; reflexivity).
  assert (Hparse : @jwt_ParseString Sample.jwt "legacy"
                     (parse_options Sample.verifier [])
                   = Ok Sample.legacy_token) by (vm_compute; reflexivity).
  assert (Hdid : not_string_at Sample.legacy_claims deploymentID)
    by (left; vm_compute; reflexivity).
  assert (Haid : Sample.legacy_claims !! accountID = Some (AnyFloat64 (float64_of_Z 42)))
    by (vm_compute; reflexivity).
  assert (Horg : Sample.legacy_claims !! organization = Some (AnyString "Acme"))
    by (vm_compute; reflexivity).
  assert (Hcap : Sample.legacy_claims !! capacity = Some (AnyFloat64 (float64_of_Z 100)))
    by (vm_compute; reflexivity).
  assert (Hplan : Sample.legacy_claims !! plan = Some (AnyString "enterprise"))
    by (vm_compute; reflexivity).
  split.
  - apply (proj1 (@VerifyClusterLicense_no_deploymentId Sample.platform Sample.pem
                    Sample.x509 Sample.jwk Sample.jwt Sample.env "legacy" "" []
                    Sample.verifier Sample.legacy_token Sample.legacy_claims
                    (float64_of_Z 42) (float64_of_Z 100) "Acme" "enterprise"
                    Hnew Hparse eq_refl Hdid Haid eq_refl Horg Hcap Hplan)).
    reflexivity.
  - apply (proj2 (@VerifyClusterLicense_no_deploymentId Sample.platform Sample.pem
                    Sample.x509 Sample.jwk Sample.jwt Sample.env "legacy" "dep-123" []
                    Sample.verifier Sample.legacy_token Sample.legacy_claims
                    (float64_of_Z 42) (float64_of_Z 100) "Acme" "enterprise"
                    Hnew Hparse eq_refl Hdid Haid eq_refl Horg Hcap Hplan)).
    discriminate.
Defined.

(** The error for the expired license is the parser's, behind the text of
    [Verify]. *)
Lemma VerifyClusterLicense_error_cases_witness :
  exists e0,
    @jwt_ParseString Sample.jwt "expired" (parse_options Sample.verifier []) = Err e0
    /\ "failed to verify license: exp not satisfied"
       = "failed to verify license: " +:+ e0.
Proof.
  assert (Hres : @VerifyClusterLicense Sample.platform Sample.pem Sample.x509
                   Sample.jwk Sample.jwt Sample.env "expired" "dep-123" []
                 = Some "failed to verify license: exp not satisfied")
    by (vm_compute; reflexivity).
  assert (Hnew : @NewLicenseVerifier Sample.pem Sample.x509 Sample.jwk
                   (@clusterPublicKey Sample.env)
                 = Ok Sample.verifier) by (vm_compute; reflexivity).
  assert (Hparse : @jwt_ParseString Sample.jwt "expired"
                     (parse_options Sample.verifier [])
                   = Err "exp not satisfied") by (vm_compute; reflexivity).
  pose proof (@VerifyClusterLicense_error_cases Sample.platform Sample.pem
                Sample.x509 Sample.jwk Sample.jwt Sample.env
                "expired" "dep-123" [] _ Hres) as W.
  destruct W as [(e0 & Hload & _) | [(pbKey & _ & Hjwk) | (lv & Hlv & W)]].
  - vm_compute in Hload. discriminate Hload.
  - cbn in Hjwk. discriminate Hjwk.
  - rewrite Hnew in Hlv. injection Hlv as <-.
    destruct W as [(e0 & He0 & Heq) | [(token & Htok & _) | (token & info & Htok & _)]].
    + now exists e0.
    + rewrite Hparse in Htok. discriminate Htok.
    + rewrite Hparse in Htok. discriminate Htok.
Defined.

